(** * Quran-app: the Qibla compass arithmetic and the Tasbeeh counter store

    A shallow embedding of the pieces of logic of the application that
    carry domain semantics:

    - [SolatQibla]: the great-circle bearing towards the Kaaba, the heading
      derived from a magnetometer sample, and the two rotation angles given
      to the rendered transforms;
    - [Tasbeeh]: the expiring key-value helpers and the per-item counters;
    - [Quran]: saving a reading bookmark and going back to it.

    JavaScript numbers are modelled by [number]: the exact real the double
    stands for, or one of the three special values [Infinity], [-Infinity]
    and [NaN].  Rounding, overflow and the sign of zero are abstracted:
    an operation on finite operands yields the exact real result.  Two
    places where the doubles differ from it: a sum is rounded, so that
    [a + 360] is exactly 360 for a negative [a] of magnitude below about
    2.8e-14, where the model keeps [360 + a]; and there is one zero, so
    that [Math.atan2(0, -0)], which is PI in doubles, is 0 here.  Every
    theorem below is a statement of this exact arithmetic: an equality
    between the results of two different computations, or a strict
    bound met at its end point, is to be read up to rounding in
    doubles. *)

From Stdlib Require Import Reals Lra Lia ZArith String.
From stdpp Require Import base gmap strings pretty.

(** ** JavaScript numbers *)

Module JS.

Local Open Scope R_scope.

Inductive number : Type :=
| Num (r : R)
| PosInf
| NegInf
| NaN.

Definition finite (n : number) : Prop := exists r, n = Num r.

(** Sign of a real, as a [comparison] with zero. *)
Definition Rsgn (r : R) : comparison :=
  if Rlt_dec 0 r then Gt else if Rlt_dec r 0 then Lt else Eq.

Definition sgn (n : number) : option comparison :=
  match n with
  | Num r => Some (Rsgn r)
  | PosInf => Some Gt
  | NegInf => Some Lt
  | NaN => None
  end.

Definition sgn_mul (a b : comparison) : comparison :=
  match a, b with
  | Eq, _ | _, Eq => Eq
  | Gt, Gt | Lt, Lt => Gt
  | _, _ => Lt
  end.

Definition signed_inf (c : comparison) : number :=
  match c with Gt => PosInf | Lt => NegInf | Eq => NaN end.

(** Unary minus. *)
Definition neg (a : number) : number :=
  match a with
  | Num r => Num (- r)
  | PosInf => NegInf
  | NegInf => PosInf
  | NaN => NaN
  end.

(** [a + b] *)
Definition add (a b : number) : number :=
  match a, b with
  | NaN, _ | _, NaN => NaN
  | Num r, Num s => Num (r + s)
  | PosInf, NegInf | NegInf, PosInf => NaN
  | PosInf, _ | _, PosInf => PosInf
  | NegInf, _ | _, NegInf => NegInf
  end.

(** [a - b] *)
Definition sub (a b : number) : number :=
  match a, b with
  | NaN, _ | _, NaN => NaN
  | Num r, Num s => Num (r - s)
  | PosInf, PosInf | NegInf, NegInf => NaN
  | PosInf, _ | _, NegInf => PosInf
  | NegInf, _ | _, PosInf => NegInf
  end.

(** [a * b]; zero times an infinity is [NaN]. *)
Definition mul (a b : number) : number :=
  match a, b with
  | Num r, Num s => Num (r * s)
  | _, _ =>
      match sgn a, sgn b with
      | Some sa, Some sb => signed_inf (sgn_mul sa sb)
      | _, _ => NaN
      end
  end.

(** [a / b]; a zero divisor is taken as [+0]. *)
Definition div (a b : number) : number :=
  match a, b with
  | NaN, _ | _, NaN => NaN
  | Num r, Num s => if Req_dec_T s 0 then signed_inf (Rsgn r) else Num (r / s)
  | Num _, _ => Num 0
  | _, Num s =>
      match sgn a with
      | Some sa => signed_inf (sgn_mul sa (if Rlt_dec s 0 then Lt else Gt))
      | None => NaN
      end
  | _, _ => NaN
  end.

(** Truncation of a real towards zero. *)
Definition Rtrunc (r : R) : Z :=
  if Rle_dec 0 r then Zfloor r else Zceil r.

(** The remainder of the truncating division, which is what [%] computes
    on finite operands with a non-zero divisor. *)
Definition Rrem (n d : R) : R := n - d * IZR (Rtrunc (n / d)).

(** [n % d] *)
Definition rem (n d : number) : number :=
  match n, d with
  | NaN, _ | _, NaN => NaN
  | PosInf, _ | NegInf, _ => NaN
  | Num r, Num s => if Req_dec_T s 0 then NaN else Num (Rrem r s)
  | Num r, _ => Num r
  end.

(** [a > b]; false as soon as an operand is [NaN]. *)
Definition gt (a b : number) : bool :=
  match a, b with
  | NaN, _ | _, NaN => false
  | Num r, Num s => if Rgt_dec r s then true else false
  | PosInf, PosInf | NegInf, _ => false
  | PosInf, _ => true
  | Num _, PosInf => false
  | Num _, NegInf => true
  end.

(** The angle of the point [(x, y)], in (-PI, PI]. *)
Definition Ratan2 (y x : R) : R :=
  if Rlt_dec 0 x then atan (y / x)
  else if Rlt_dec x 0 then
    if Rle_dec 0 y then atan (y / x) + PI else atan (y / x) - PI
  else if Rlt_dec 0 y then PI / 2
  else if Rlt_dec y 0 then - (PI / 2)
  else 0.

Module Math.

Definition PI : number := Num Rtrigo1.PI.

Definition sin (a : number) : number :=
  match a with Num r => Num (Rtrigo_def.sin r) | _ => NaN end.

Definition cos (a : number) : number :=
  match a with Num r => Num (Rtrigo_def.cos r) | _ => NaN end.

Definition atan2 (y x : number) : number :=
  match y, x with
  | NaN, _ | _, NaN => NaN
  | Num r, Num s => Num (Ratan2 r s)
  | Num r, PosInf => Num 0
  | Num r, NegInf =>
      if Rle_dec 0 r then Num Rtrigo1.PI else Num (- Rtrigo1.PI)
  | PosInf, Num _ => Num (Rtrigo1.PI / 2)
  | NegInf, Num _ => Num (- (Rtrigo1.PI / 2))
  | PosInf, PosInf => Num (Rtrigo1.PI / 4)
  | NegInf, PosInf => Num (- (Rtrigo1.PI / 4))
  | PosInf, NegInf => Num (3 * Rtrigo1.PI / 4)
  | NegInf, NegInf => Num (- (3 * Rtrigo1.PI / 4))
  end.

(** [Math.min(a, b)] *)
Definition min (a b : number) : number :=
  match a, b with
  | NaN, _ | _, NaN => NaN
  | NegInf, _ | _, NegInf => NegInf
  | PosInf, c | c, PosInf => c
  | Num r, Num s => Num (Rmin r s)
  end.

(** [Math.max(a, b)] *)
Definition max (a b : number) : number :=
  match a, b with
  | NaN, _ | _, NaN => NaN
  | PosInf, _ | _, PosInf => PosInf
  | NegInf, c | c, NegInf => c
  | Num r, Num s => Num (Rmax r s)
  end.

(** [Math.round(a)]: the nearest integer, halves going up. *)
Definition round (a : number) : number :=
  match a with
  | Num r => Num (IZR (Zfloor (r + 1 / 2)))
  | _ => a
  end.

End Math.

(** Whether a number is truthy: every number but 0 and [NaN]. *)
Definition truthy (a : number) : bool :=
  match a with
  | Num r => if Req_dec_T r 0 then false else true
  | NaN => false
  | _ => true
  end.

(** [a || b] on numbers *)
Definition orElse (a b : number) : number := if truthy a then a else b.

(** [a >= b]; false as soon as an operand is [NaN]. *)
Definition ge (a b : number) : bool :=
  match a, b with
  | NaN, _ | _, NaN => false
  | Num r, Num s => if Rge_dec r s then true else false
  | PosInf, _ | _, NegInf => true
  | NegInf, _ | _, PosInf => false
  end.

End JS.

(** ** The Qibla compass screen *)

Module SolatQibla.

Import JS.
Local Open Scope R_scope.

Definition KAABA_LATITUDE : number := Num 21.4225.
Definition KAABA_LONGITUDE : number := Num 39.8262.

(** [location.coords]: only the two fields the screen computes with. *)
Record Coords : Type := mkCoords {
  latitude : number;
  longitude : number
}.

(** One magnetometer reading. *)
Record MagnetometerData : Type := mkSample {
  x : number;
  y : number;
  z : number
}.

(** The [useState] cells of the component that the angles depend on. *)
Record State : Type := mkState {
  magnetometerData : MagnetometerData;
  qiblaDirection : number;
  heading : number;
  location : option Coords
}.

Definition initialState : State :=
  {| magnetometerData := {| x := Num 0; y := Num 0; z := Num 0 |};
     qiblaDirection := Num 0;
     heading := Num 0;
     location := None |}.

Definition setQiblaDirection (q : number) (st : State) : State :=
  {| magnetometerData := magnetometerData st;
     qiblaDirection := q;
     heading := heading st;
     location := location st |}.

Definition setHeading (h : number) (st : State) : State :=
  {| magnetometerData := magnetometerData st;
     qiblaDirection := qiblaDirection st;
     heading := h;
     location := location st |}.

Definition setLocation (l : option Coords) (st : State) : State :=
  {| magnetometerData := magnetometerData st;
     qiblaDirection := qiblaDirection st;
     heading := heading st;
     location := l |}.

Definition setMagnetometerData (d : MagnetometerData) (st : State) : State :=
  {| magnetometerData := d;
     qiblaDirection := qiblaDirection st;
     heading := heading st;
     location := location st |}.

Definition calculateQiblaDirection (coords : Coords) (st : State) : State :=
  (* Convert to radians *)
  let lat1 := mul (latitude coords) (div Math.PI (Num 180)) in
  let lon1 := mul (longitude coords) (div Math.PI (Num 180)) in
  let lat2 := mul KAABA_LATITUDE (div Math.PI (Num 180)) in
  let lon2 := mul KAABA_LONGITUDE (div Math.PI (Num 180)) in
  (* great circle formula *)
  let y := mul (Math.sin (sub lon2 lon1)) (Math.cos lat2) in
  let x := sub (mul (Math.cos lat1) (Math.sin lat2))
               (mul (mul (Math.sin lat1) (Math.cos lat2))
                    (Math.cos (sub lon2 lon1))) in
  let qibla := mul (Math.atan2 y x) (div (Num 180) Math.PI) in
  (* Normalize to 0-360 *)
  let qibla := rem (add qibla (Num 360)) (Num 360) in
  setQiblaDirection qibla st.

(** [OS] stands for [Platform.OS]. *)
Definition calculateHeading (OS : string) (st : State) : State :=
  let '(mkSample x y z) := magnetometerData st in
  let heading :=
    if String.eqb OS "ios"
    then mul (Math.atan2 y x) (div (Num 180) Math.PI)
    else mul (Math.atan2 x y) (div (Num 180) Math.PI) in
  (* Normalize to 0-360 *)
  let heading := rem (add heading (Num 360)) (Num 360) in
  setHeading heading st.

(** The two angles computed at each render. *)
Definition compassRotation (st : State) : number := neg (heading st).
Definition needleRotation (st : State) : number :=
  sub (qiblaDirection st) (heading st).

(** What the render gives to the two [rotate] transforms: the compass rose
    and the Qibla indicator. *)
Record Transforms : Type := mkTransforms {
  roseRotate : number;
  indicatorRotate : number
}.

Definition render (st : State) : Transforms :=
  {| roseRotate := compassRotation st;
     indicatorRotate := needleRotation st |}.

(** The events that change the angles: a location (loaded from storage or
    freshly obtained) and a magnetometer reading.  After either, the effect
    on [magnetometerData, location] recomputes the heading when a location
    is present. *)
Inductive Event : Type :=
| LocationFix (coords : Coords)
| MagnetometerReading (data : MagnetometerData).

Definition headingEffect (OS : string) (st : State) : State :=
  match location st with
  | Some _ => calculateHeading OS st
  | None => st
  end.

Definition step (OS : string) (ev : Event) (st : State) : State :=
  match ev with
  | LocationFix coords =>
      headingEffect OS (calculateQiblaDirection coords (setLocation (Some coords) st))
  | MagnetometerReading data =>
      headingEffect OS (setMagnetometerData data st)
  end.

Definition finiteCoords (c : Coords) : Prop :=
  finite (latitude c) /\ finite (longitude c).

Definition finiteSample (d : MagnetometerData) : Prop :=
  finite (x d) /\ finite (y d) /\ finite (z d).

Definition finiteEvent (ev : Event) : Prop :=
  match ev with
  | LocationFix c => finiteCoords c
  | MagnetometerReading d => finiteSample d
  end.

(** States the screen can be in when the providers deliver finite numbers. *)
Inductive reachable (OS : string) : State -> Prop :=
| reachable_init : reachable OS initialState
| reachable_step : forall ev st,
    reachable OS st -> finiteEvent ev -> reachable OS (step OS ev st).

(** A number in [0, 360). *)
Definition normalized (n : number) : Prop :=
  exists r, n = Num r /\ 0 <= r < 360.

(** *** The arithmetic of the specification, on real numbers

    The definitions of this part follow the words of the specification
    ([computeBearing], [computeHeading], [computeDisplayRotation]); the
    theorems compare the code above with them. *)

Inductive PlatformKind : Type := PlatformA | PlatformB.

Definition platformKind (OS : string) : PlatformKind :=
  if String.eqb OS "ios" then PlatformA else PlatformB.

Definition toRadians (deg : R) : R := deg * (PI / 180).
Definition toDegrees (rad : R) : R := rad * (180 / PI).

(** [(a + 360) mod 360] *)
Definition normalize360 (a : R) : R := Rrem (a + 360) 360.

(** The initial bearing from [(lat1, lon1)] to [(lat2, lon2)], all four in
    degrees. *)
Definition computeBearing (lat1 lon1 lat2 lon2 : R) : R :=
  let phi1 := toRadians lat1 in
  let phi2 := toRadians lat2 in
  let dlon := toRadians lon2 - toRadians lon1 in
  let y := sin dlon * cos phi2 in
  let x := cos phi1 * sin phi2 - sin phi1 * cos phi2 * cos dlon in
  normalize360 (toDegrees (Ratan2 y x)).

Definition computeHeading (p : PlatformKind) (x y : R) : R :=
  match p with
  | PlatformA => normalize360 (toDegrees (Ratan2 y x))
  | PlatformB => normalize360 (toDegrees (Ratan2 x y))
  end.

(** The display rotation as a function of the two angles: what
    [needleRotation] yields on a state that holds them. *)
Definition computeDisplayRotation (bearing heading : number) : number :=
  needleRotation {| magnetometerData := magnetometerData initialState;
                    qiblaDirection := bearing;
                    heading := heading;
                    location := None |}.

(** The claim of the data model: each of the four angles is in [0, 360)
    when it reaches the transforms. *)
Definition allAnglesNormalized (st : State) : Prop :=
  normalized (qiblaDirection st)
  /\ normalized (heading st)
  /\ normalized (roseRotate (render st))
  /\ normalized (indicatorRotate (render st)).

(** What holds of every reachable state. *)
Definition stateInvariant (st : State) : Prop :=
  finiteSample (magnetometerData st)
  /\ normalized (qiblaDirection st)
  /\ normalized (heading st).

(** The state after a location fix at (0, 0) and the reading (1, 0, 0) on
    Android. *)
Definition facingEast : State :=
  step "android" (MagnetometerReading (mkSample (Num 1) (Num 0) (Num 0)))
    (step "android" (LocationFix (mkCoords (Num 0) (Num 0))) initialState).

(** The state after a list of events, the first one first. *)
Definition run (OS : string) (evs : list Event) (st : State) : State :=
  foldl (fun s ev => step OS ev s) st evs.

Definition isReading (ev : Event) : Prop :=
  match ev with MagnetometerReading _ => True | LocationFix _ => False end.

End SolatQibla.

(** ** The Tasbeeh counter screen *)

Module Tasbeeh.

Import JS.
Local Open Scope R_scope.

(** Values that [JSON.parse] produces and [JSON.stringify] consumes, and
    [undefined]. *)
#[local] Unset Elimination Schemes.
Inductive JSValue : Type :=
| VUndefined
| VNull
| VBool (b : bool)
| VNumber (n : number)
| VString (s : string)
| VArray (items : list JSValue)
| VObject (fields : gmap string JSValue).
#[local] Set Elimination Schemes.

(** [AsyncStorage]: string keys to string values. *)
Abbreviation Storage := (gmap string string).

Definition TASBEEH_COUNTS_KEY : string := "tasbeeh_counts".
Definition LAST_TASBEEH_KEY : string := "last_tasbeeh".

(** 30 minutes in milliseconds *)
Definition STORAGE_EXPIRY_TIME : number :=
  mul (mul (Num 30) (Num 60)) (Num 1000).

(** [v.name] for a property name that no built-in prototype defines, as
    [timestamp] and [value] are: [None] stands for the TypeError raised on
    [null] and [undefined]. *)
Definition getProp (v : JSValue) (name : string) : option JSValue :=
  match v with
  | VUndefined | VNull => None
  | VObject fields => Some (default VUndefined (fields !! name))
  | _ => Some VUndefined
  end.

Section Runtime.

(** The services of the JavaScript runtime the helpers call.
    [JSON_parse] and [JSON_stringify] return [None] when they throw;
    the other two are the conversion to a number of a string and of an
    array or object. *)
Variable JSON_parse : string -> option JSValue.
Variable JSON_stringify : JSValue -> option string.
Variable StringToNumber : string -> number.
Variable ObjectToNumber : JSValue -> number.

Definition ToNumber (v : JSValue) : number :=
  match v with
  | VUndefined => NaN
  | VNull => Num 0
  | VBool b => if b then Num 1 else Num 0
  | VNumber n => n
  | VString s => StringToNumber s
  | VArray _ | VObject _ => ObjectToNumber v
  end.

(** [now] is the value of [new Date().getTime()] at the call. *)
Definition saveWithExpiry (key : string) (value : JSValue) (now : number)
    (storage : Storage) : Storage :=
  let item := VObject (<["value" := value]> {["timestamp" := VNumber now]}) in
  match JSON_stringify item with
  | Some itemStr => <[key := itemStr]> storage
  | None => storage
  end.

(** Returns the value handed back to the caller and the storage left
    behind.  Every [None] of an intermediate step is an exception, which
    the [catch] turns into [null]. *)
Definition getWithExpiry (key : string) (now : number) (storage : Storage)
    : JSValue * Storage :=
  match storage !! key with
  | None => (VNull, storage)
  | Some itemStr =>
      (* If the item doesn't exist, return null *)
      if String.eqb itemStr "" then (VNull, storage)
      else
        match JSON_parse itemStr with
        | None => (VNull, storage)
        | Some item =>
            match getProp item "timestamp" with
            | None => (VNull, storage)
            | Some timestamp =>
                (* Check if the item is expired *)
                if gt (sub now (ToNumber timestamp)) STORAGE_EXPIRY_TIME
                then (VNull, delete key storage)
                else
                  match getProp item "value" with
                  | Some value => (value, storage)
                  | None => (VNull, storage)
                  end
            end
        end
  end.

End Runtime.

(** The fields of an adhkar entry the counter logic reads. *)
Record AdhkarItem : Type := mkAdhkar {
  id : string;
  name : string;
  recommended : number;
  category : string
}.

(** The [useState] cells of the screen. *)
Record State : Type := mkState {
  counts : gmap string number;
  selectedAdhkar : option AdhkarItem;
  countViewVisible : bool;
  count : number
}.

Definition initialState : State :=
  {| counts := ∅; selectedAdhkar := None;
     countViewVisible := false; count := Num 0 |}.

Definition handleReset (st : State) : State :=
  match selectedAdhkar st with
  | None => st
  | Some sel =>
      {| counts := <[id sel := Num 0]> (counts st);
         selectedAdhkar := selectedAdhkar st;
         countViewVisible := countViewVisible st;
         count := Num 0 |}
  end.

(** *** Sample data *)

(** A stand-in parser for one stored text: the item saved at time 0 with
    the counts [{subhanallah: 33}]. *)
Definition savedCounts : gmap string JSValue :=
  <["value" := VObject {["subhanallah" := VNumber (Num 33)]}]>
    {["timestamp" := VNumber (Num 0)]}.

Definition parseSaved (s : string) : option JSValue :=
  if String.eqb s "saved-counts" then Some (VObject savedCounts) else None.

Definition subhanallah : AdhkarItem :=
  {| id := "subhanallah"; name := "SubhanAllah";
     recommended := Num 33; category := "daily" |}.

Definition counting : State :=
  {| counts := <["subhanallah" := Num 12]> {["alhamdulillah" := Num 7]};
     selectedAdhkar := Some subhanallah;
     countViewVisible := true;
     count := Num 12 |}.

(** *** The periodic cleanup *)

Section Cleanup.

Variable JSON_parse : string -> option JSValue.
Variable StringToNumber : string -> number.
Variable ObjectToNumber : JSValue -> number.

(** Whether a stored text is an item that the helpers find expired at
    [now]: it parses, its [timestamp] can be read, and
    [now - item.timestamp > STORAGE_EXPIRY_TIME]. *)
Definition expired (now : number) (entry : option string) : bool :=
  match entry with
  | None => false
  | Some itemStr =>
      if String.eqb itemStr "" then false
      else
        match JSON_parse itemStr with
        | None => false
        | Some item =>
            match getProp item "timestamp" with
            | None => false
            | Some timestamp =>
                gt (sub now (ToNumber StringToNumber ObjectToNumber timestamp))
                   STORAGE_EXPIRY_TIME
            end
        end
  end.

(** [now] is read once, before the loop.  An exception raised while a key
    is examined leaves the loop: the keys after it are not looked at, and
    what was removed before stays removed. *)
Fixpoint clearExpiredItems (keys : list string) (now : number)
    (storage : Storage) : Storage :=
  match keys with
  | [] => storage
  | key :: keys' =>
      match storage !! key with
      | None => clearExpiredItems keys' now storage
      | Some itemStr =>
          if String.eqb itemStr "" then clearExpiredItems keys' now storage
          else
            match JSON_parse itemStr with
            | None => storage
            | Some item =>
                match getProp item "timestamp" with
                | None => storage
                | Some timestamp =>
                    if gt (sub now (ToNumber StringToNumber ObjectToNumber timestamp))
                          STORAGE_EXPIRY_TIME
                    then clearExpiredItems keys' now (delete key storage)
                    else clearExpiredItems keys' now storage
                end
            end
      end
  end.

End Cleanup.

(** *** The other handlers of the counter *)

(** A counts object as the JSON value that is saved. *)
Definition countsToJS (cs : gmap string number) : JSValue :=
  VObject (VNumber <$> cs).

(** [saveCounts]: the effect on [counts, loading] calls it when an item is
    selected and the screen is not loading. *)
Definition saveCounts (JSON_stringify : JSValue -> option string)
    (now : number) (st : State) (storage : Storage) : Storage :=
  saveWithExpiry JSON_stringify TASBEEH_COUNTS_KEY (countsToJS (counts st))
    now storage.

(** [counts[key] || 0] *)
Definition countOf (cs : gmap string number) (key : string) : number :=
  match cs !! key with
  | Some n => orElse n (Num 0)
  | None => Num 0
  end.

(** The cells set by [handleSelectAdhkar]; its call of [saveLastTasbeeh]
    writes to the storage and leaves them alone. *)
Definition handleSelectAdhkar (item : AdhkarItem) (st : State) : State :=
  {| counts := counts st;
     selectedAdhkar := Some item;
     countViewVisible := true;
     count := countOf (counts st) (id item) |}.

(** [None] is the TypeError of [selectedAdhkar!.id] when nothing is
    selected. *)
Definition handleCounterPress (st : State) : option State :=
  let newCount := add (count st) (Num 1) in
  match selectedAdhkar st with
  | None => None
  | Some sel =>
      Some {| counts := <[id sel := newCount]> (counts st);
              selectedAdhkar := selectedAdhkar st;
              countViewVisible := countViewVisible st;
              count := newCount |}
  end.

Definition handleBack (st : State) : State :=
  {| counts := counts st;
     selectedAdhkar := selectedAdhkar st;
     countViewVisible := false;
     count := count st |}.

Definition calculateProgress (st : State) : number :=
  match selectedAdhkar st with
  | None => Num 0
  | Some sel =>
      let currentCount := orElse (count st) (Num 0) in
      let target := orElse (recommended sel) (Num 100) in
      Math.min (div currentCount target) (Num 1)
  end.

(** [progressPercent] of the counter view. *)
Definition progressPercent (st : State) : number :=
  Math.round (mul (calculateProgress st) (Num 100)).

(** The number in [progressWidth], the width in percent of the progress
    bar that [renderAdhkarItem] draws for an item of the list. *)
Definition progressWidth (cs : gmap string number) (item : AdhkarItem)
    : number :=
  let savedCount := countOf cs (id item) in
  let progress := div savedCount (orElse (recommended item) (Num 100)) in
  Math.min (mul progress (Num 100)) (Num 100).

(** The handlers a user can trigger on the counter. *)
Inductive Action : Type :=
| SelectAdhkar (item : AdhkarItem)
| CounterPress
| Reset
| Back.

Definition act (a : Action) (st : State) : option State :=
  match a with
  | SelectAdhkar item => Some (handleSelectAdhkar item st)
  | CounterPress => handleCounterPress st
  | Reset => Some (handleReset st)
  | Back => Some (handleBack st)
  end.

Fixpoint actAll (l : list Action) (st : State) : option State :=
  match l with
  | [] => Some st
  | a :: l' =>
      match act a st with
      | Some st' => actAll l' st'
      | None => None
      end
  end.

(** The claim on reads, as it is worded: whatever the storage holds, a
    read hands back the stored value (other than [null]) only if the
    stored item has a timestamp at most 30 minutes (1,800,000 ms) behind
    the current time. *)
Definition valueOnlyWhenFresh : Prop :=
  forall (JSON_parse : string -> option JSValue)
         (StringToNumber : string -> number)
         (ObjectToNumber : JSValue -> number)
         (key : string) (now : R) (storage : Storage)
         (s : string) (fields : gmap string JSValue) (value : JSValue),
    storage !! key = Some s ->
    JSON_parse s = Some (VObject fields) ->
    fields !! "value" = Some value ->
    value <> VNull ->
    fst (getWithExpiry JSON_parse StringToNumber ObjectToNumber
           key (Num now) storage) = value ->
    exists ts : R,
      fields !! "timestamp" = Some (VNumber (Num ts))
      /\ now - ts <= 1800000.

(** The count shown is the saved count of the selected item,
    [counts[id] || 0]. *)
Definition countInSync (st : State) : Prop :=
  forall sel : AdhkarItem,
    selectedAdhkar st = Some sel -> count st = countOf (counts st) (id sel).

(** *** More sample data *)

Definition stringifySaved (v : JSValue) : option string := Some "saved-counts".

(** A stand-in parser that yields an item without a timestamp. *)
Definition parseBare (s : string) : option JSValue :=
  Some (VObject {["value" := VNumber (Num 5)]}).

Definition twoEntries : Storage :=
  <[LAST_TASBEEH_KEY := "garbage"]> {[TASBEEH_COUNTS_KEY := "saved-counts"]}.

End Tasbeeh.

(** ** The Quran reader: bookmarks *)

Module Quran.

Import Tasbeeh.

Definition BOOKMARK_STORAGE_KEY : string := "quran_bookmark_data".

(** A surah object of the bundled data, known by its identity: [===] on
    two surahs is the equality of their identities. *)
Abbreviation Surah := positive.

(** [bookmarkData] *)
Record Bookmark : Type := mkBookmark {
  surahIndex : nat;
  ayahIndex : nat;
  surahName : string;
  ayahNumber : nat;
  timestamp : string
}.

(** The [useState] cells the bookmark logic reads or writes, and the ref
    [initialRenderComplete].  Indices are array indices. *)
Record State : Type := mkState {
  surahs : list Surah;
  selectedSurah : option Surah;
  viewMode : string;
  bookmark : option Bookmark;
  currentAyahIndex : nat;
  initialRenderComplete : bool
}.

Definition handleSurahSelect (surah : Surah) (index : nat) (st : State)
    : State :=
  {| surahs := surahs st;
     selectedSurah := Some surah;
     viewMode := "read-surah";
     bookmark := bookmark st;
     currentAyahIndex := 0;
     initialRenderComplete := false |}.

Definition handleBackToList (st : State) : State :=
  {| surahs := surahs st;
     selectedSurah := None;
     viewMode := "surah-list";
     bookmark := bookmark st;
     currentAyahIndex := currentAyahIndex st;
     initialRenderComplete := initialRenderComplete st |}.

Definition goToBookmark (st : State) : State :=
  match bookmark st with
  | None => st
  | Some b =>
      (* Find the surah *)
      match surahs st !! surahIndex b with
      | None => st
      | Some surah =>
          {| surahs := surahs st;
             selectedSurah := Some surah;
             viewMode := "read-surah";
             bookmark := bookmark st;
             currentAyahIndex := ayahIndex b;
             initialRenderComplete := initialRenderComplete st |}
      end
  end.

(** [surahs.findIndex(s => s === selectedSurah)]; [None] stands for -1. *)
Definition selectedSurahIndex (st : State) : option nat :=
  match selectedSurah st with
  | None => None
  | Some sel => fst <$> list_find (fun s => s = sel) (surahs st)
  end.

(** [isBookmarked] of [renderAyah], for the ayah at [index] of the surah
    being read. *)
Definition isBookmarkedAyah (st : State) (index : nat) : bool :=
  match bookmark st with
  | None => false
  | Some b =>
      match selectedSurah st, surahs st !! surahIndex b with
      | Some sel, Some surah => bool_decide (sel = surah)
      | _, _ => false
      end
      && Nat.eqb index (ayahIndex b)
  end.

(** [isBookmarked] of [renderSurahItem], for the surah at [index] of the
    list. *)
Definition isBookmarkedSurah (st : State) (index : nat) : bool :=
  match bookmark st with
  | None => false
  | Some b => Nat.eqb (surahIndex b) index
  end.

Section Data.

(** [nameOf s] is [s.name], the empty string when the surah has none;
    [JSON_stringify] is the text [JSON.stringify] gives a bookmark. *)
Variable nameOf : Surah -> string.
Variable JSON_stringify : Bookmark -> string.

(** [now] is [new Date().toISOString()] at the call. *)
Definition saveBookmark (surahIndex ayahIndex : nat) (now : string)
    (st : State) (storage : Storage) : State * Storage :=
  let name :=
    match surahs st !! surahIndex with
    | Some surah => nameOf surah
    | None => ""
    end in
  let bookmarkData :=
    {| surahIndex := surahIndex;
       ayahIndex := ayahIndex;
       surahName := if String.eqb name ""
                    then "Surah " +:+ pretty (surahIndex + 1)
                    else name;
       ayahNumber := ayahIndex + 1;
       timestamp := now |} in
  ({| surahs := surahs st;
      selectedSurah := selectedSurah st;
      viewMode := viewMode st;
      bookmark := Some bookmarkData;
      currentAyahIndex := currentAyahIndex st;
      initialRenderComplete := initialRenderComplete st |},
   <[BOOKMARK_STORAGE_KEY := JSON_stringify bookmarkData]> storage).

(** The bookmark button of an ayah, at [index] in the surah being read. *)
Definition pressAyahBookmark (index : nat) (now : string) (st : State)
    (storage : Storage) : State * Storage :=
  match selectedSurahIndex st with
  | Some surahIndex => saveBookmark surahIndex index now st storage
  | None => (st, storage)
  end.

(** The bookmark button of the header of the reading view. *)
Definition pressHeaderBookmark (now : string) (st : State)
    (storage : Storage) : State * Storage :=
  match selectedSurahIndex st with
  | Some surahIndex =>
      saveBookmark surahIndex (currentAyahIndex st) now st storage
  | None => (st, storage)
  end.

End Data.

(** *** Sample data *)

Definition reading : State :=
  {| surahs := [7%positive; 8%positive; 9%positive];
     selectedSurah := Some 8%positive;
     viewMode := "read-surah";
     bookmark := None;
     currentAyahIndex := 0;
     initialRenderComplete := false |}.

End Quran.

(** ** Facts about the number model *)

Module JSFacts.

Import JS.
Local Open Scope R_scope.

Lemma div_Num (r s : R) : s <> 0 -> div (Num r) (Num s) = Num (r / s).
Proof.
  intros Hs. unfold div. destruct (Req_dec_T s 0) as [E | _]; [contradiction | reflexivity].
Qed.

Lemma rem_Num (r s : R) : s <> 0 -> rem (Num r) (Num s) = Num (Rrem r s).
Proof.
  intros Hs. unfold rem. destruct (Req_dec_T s 0) as [E | _]; [contradiction | reflexivity].
Qed.

Lemma PI_div_180 : div Math.PI (Num 180) = Num (PI / 180).
Proof. apply div_Num. lra. Qed.

Lemma div_180_PI : div (Num 180) Math.PI = Num (180 / PI).
Proof. apply div_Num. pose proof PI_RGT_0. lra. Qed.

(** Truncation agrees with the floor on non-negative reals. *)
Lemma Rtrunc_nonneg (r : R) : 0 <= r -> Rtrunc r = Zfloor r.
Proof.
  intros Hr. unfold Rtrunc. destruct (Rle_dec 0 r); [reflexivity | contradiction].
Qed.

Lemma Rtrunc_eq (z : Z) (r : R) :
  0 <= r -> IZR z <= r < IZR z + 1 -> Rtrunc r = z.
Proof.
  intros Hr Hz. rewrite Rtrunc_nonneg by assumption. now apply Zfloor_eq.
Qed.

(** The remainder of a non-negative dividend by a positive divisor. *)
Lemma Rrem_bounds (n d : R) : 0 <= n -> 0 < d -> 0 <= Rrem n d < d.
Proof.
  intros Hn Hd. unfold Rrem.
  assert (Hq : 0 <= n / d).
  { apply Rmult_le_pos; [assumption | left; now apply Rinv_0_lt_compat]. }
  rewrite Rtrunc_nonneg by assumption.
  destruct (Zfloor_bound (n / d)) as [Hlo Hhi].
  assert (Hn' : n = d * (n / d)) by (field; lra).
  set (k := IZR (Zfloor (n / d))) in *.
  split.
  - assert (d * k <= d * (n / d)) by (apply Rmult_le_compat_l; lra). lra.
  - assert (d * (n / d) < d * (k + 1)) by (apply Rmult_lt_compat_l; lra). lra.
Qed.

(** A dividend within one divisor above the divisor loses exactly one
    divisor. *)
Lemma Rrem_once (n d : R) : 0 < d -> d <= n < 2 * d -> Rrem n d = n - d.
Proof.
  intros Hd [Hlo Hhi]. unfold Rrem.
  assert (Hinv : 0 < / d) by now apply Rinv_0_lt_compat.
  assert (H1 : 1 <= n / d).
  { replace 1 with (d / d) by (field; lra). unfold Rdiv.
    apply Rmult_le_compat_r; lra. }
  assert (H2 : n / d < 2).
  { replace 2 with ((2 * d) / d) by (field; lra). unfold Rdiv.
    apply Rmult_lt_compat_r; lra. }
  rewrite (Rtrunc_eq 1); [ring | lra | simpl; lra].
Qed.

(** The angle returned by [Ratan2] lies in (-PI, PI]. *)
Lemma Ratan2_bounds (y x : R) : - PI < Ratan2 y x <= PI.
Proof.
  pose proof PI_RGT_0 as Hpi.
  pose proof (atan_bound (y / x)) as [Hlo Hhi].
  unfold Ratan2.
  destruct (Rlt_dec 0 x) as [Hx | Hx]; [lra |].
  destruct (Rlt_dec x 0) as [Hx' | Hx'].
  - assert (Hinv : / x < 0) by now apply Rinv_lt_0_compat.
    destruct (Rle_dec 0 y) as [Hy | Hy].
    + assert (Hq : y / x <= 0).
      { unfold Rdiv. rewrite <- (Rmult_0_l (/ x)).
        apply Rmult_le_compat_neg_l with (r := / x) in Hy; [| lra].
        rewrite Rmult_0_r in Hy. rewrite Rmult_0_l. lra. }
      assert (atan (y / x) <= 0).
      { destruct Hq as [Hq | Hq].
        - left. rewrite <- atan_0. now apply atan_increasing.
        - rewrite Hq, atan_0. lra. }
      lra.
    + assert (Hq : 0 < y / x).
      { unfold Rdiv. replace (y * / x) with ((- y) * (- / x)) by ring.
        apply Rmult_lt_0_compat; lra. }
      assert (0 < atan (y / x)).
      { rewrite <- atan_0. now apply atan_increasing. }
      lra.
  - destruct (Rlt_dec 0 y); [lra |].
    destruct (Rlt_dec y 0); lra.
Qed.

Lemma Ratan2_origin : Ratan2 0 0 = 0.
Proof.
  unfold Ratan2.
  destruct (Rlt_dec 0 0) as [H | _]; [lra |]. reflexivity.
Qed.

(** In the open first quadrant the angle lies strictly between 0 and a
    right angle. *)
Lemma Ratan2_first_quadrant (y x : R) :
  0 < y -> 0 < x -> 0 < Ratan2 y x < PI / 2.
Proof.
  intros Hy Hx. unfold Ratan2.
  destruct (Rlt_dec 0 x) as [_ | H]; [| contradiction].
  pose proof (atan_bound (y / x)) as [_ Hhi].
  split; [| assumption].
  rewrite <- atan_0. apply atan_increasing.
  apply Rmult_lt_0_compat; [assumption | now apply Rinv_0_lt_compat].
Qed.

End JSFacts.

(** ** The Qibla compass: bearing, heading and rotations *)

Module QiblaProofs.

Import JS JSFacts SolatQibla.
Local Open Scope R_scope.

Lemma toDegrees_bounds (a lo hi : R) :
  lo < a <= hi -> toDegrees lo < toDegrees a <= toDegrees hi.
Proof.
  intros [Hlo Hhi]. unfold toDegrees.
  assert (Hk : 0 < 180 / PI).
  { apply Rmult_lt_0_compat; [lra | apply Rinv_0_lt_compat, PI_RGT_0]. }
  split.
  - now apply Rmult_lt_compat_r.
  - apply Rmult_le_compat_r; lra.
Qed.

Lemma toDegrees_PI (k : R) : toDegrees (k * PI) = k * 180.
Proof. unfold toDegrees. field. pose proof PI_RGT_0. lra. Qed.

Lemma toDegrees_Ratan2 (y x : R) : -180 < toDegrees (Ratan2 y x) <= 180.
Proof.
  assert (Elo : toDegrees (- PI) = -180).
  { replace (- PI) with ((-1) * PI) by ring. rewrite toDegrees_PI. ring. }
  assert (Ehi : toDegrees PI = 180).
  { replace PI with (1 * PI) at 1 by ring. rewrite toDegrees_PI. ring. }
  pose proof (toDegrees_bounds _ _ _ (Ratan2_bounds y x)) as H.
  rewrite Elo, Ehi in H. exact H.
Qed.

Lemma normalize360_range (a : R) :
  -360 <= a -> 0 <= normalize360 a < 360.
Proof. intros Ha. unfold normalize360. apply Rrem_bounds; lra. Qed.

Lemma normalize360_id (a : R) : 0 <= a < 360 -> normalize360 a = a.
Proof.
  intros Ha. unfold normalize360. rewrite Rrem_once; lra.
Qed.

Lemma normalize360_Ratan2 (y x : R) :
  0 <= normalize360 (toDegrees (Ratan2 y x)) < 360.
Proof.
  apply normalize360_range. pose proof (toDegrees_Ratan2 y x). lra.
Qed.

Lemma KAABA_coordinates :
  KAABA_LATITUDE = Num (214225 / 10000)
  /\ KAABA_LONGITUDE = Num (398262 / 10000).
Proof. split; unfold KAABA_LATITUDE, KAABA_LONGITUDE; f_equal; lra. Qed.

(** On finite coordinates the code computes the real-valued bearing
    towards (21.4225, 39.8262). *)
Lemma qiblaDirection_finite (lat lon : R) (st : State) :
  qiblaDirection (calculateQiblaDirection (mkCoords (Num lat) (Num lon)) st)
  = Num (computeBearing lat lon 21.4225 39.8262).
Proof.
  unfold calculateQiblaDirection, KAABA_LATITUDE, KAABA_LONGITUDE.
  rewrite PI_div_180, div_180_PI.
  cbn [latitude longitude mul sub add Math.sin Math.cos Math.atan2
       setQiblaDirection qiblaDirection].
  rewrite rem_Num by lra. reflexivity.
Qed.

(** On a sample with finite [x] and [y] the code computes the real-valued
    heading of the platform. *)
Lemma heading_finite (OS : string) (x y : R) (z : number) (st : State) :
  magnetometerData st = mkSample (Num x) (Num y) z ->
  heading (calculateHeading OS st) = Num (computeHeading (platformKind OS) x y).
Proof.
  intros Hd. unfold calculateHeading, platformKind, computeHeading.
  rewrite Hd, div_180_PI.
  destruct (String.eqb OS "ios");
    cbn [mul add Math.atan2 setHeading heading];
    rewrite rem_Num by lra; reflexivity.
Qed.

Lemma computeBearing_range (lat1 lon1 lat2 lon2 : R) :
  0 <= computeBearing lat1 lon1 lat2 lon2 < 360.
Proof. unfold computeBearing. cbv zeta. apply normalize360_Ratan2. Qed.

Lemma computeHeading_range (p : PlatformKind) (x y : R) :
  0 <= computeHeading p x y < 360.
Proof. destruct p; apply normalize360_Ratan2. Qed.

Lemma calculateHeading_frame (OS : string) (st : State) :
  qiblaDirection (calculateHeading OS st) = qiblaDirection st
  /\ magnetometerData (calculateHeading OS st) = magnetometerData st
  /\ location (calculateHeading OS st) = location st.
Proof.
  unfold calculateHeading. destruct (magnetometerData st) as [sx sy sz] eqn:E.
  cbn. rewrite E. auto.
Qed.

Lemma toDegrees_0 : toDegrees 0 = 0.
Proof. unfold toDegrees. ring. Qed.

Lemma toDegrees_right_angle : toDegrees (PI / 2) = 90.
Proof.
  replace (PI / 2) with ((1 / 2) * PI) by field.
  rewrite toDegrees_PI. field.
Qed.

Lemma computeBearing_same (lat lon : R) : computeBearing lat lon lat lon = 0.
Proof.
  unfold computeBearing. cbv zeta.
  replace (toRadians lon - toRadians lon) with 0 by ring.
  rewrite sin_0, cos_0.
  replace (0 * cos (toRadians lat)) with 0 by ring.
  replace (cos (toRadians lat) * sin (toRadians lat)
           - sin (toRadians lat) * cos (toRadians lat) * 1) with 0 by ring.
  rewrite Ratan2_origin, toDegrees_0. apply normalize360_id. lra.
Qed.

Lemma computeHeading_origin (p : PlatformKind) : computeHeading p 0 0 = 0.
Proof.
  destruct p; unfold computeHeading;
    rewrite Ratan2_origin, toDegrees_0; apply normalize360_id; lra.
Qed.

(** The bearing seen from latitude 0, longitude 0. *)
Lemma computeBearing_equator :
  0 < computeBearing 0 0 21.4225 39.8262 < 90.
Proof.
  pose proof PI_RGT_0 as Hpi.
  unfold computeBearing. cbv zeta.
  replace (toRadians 0) with 0 by (unfold toRadians; ring).
  rewrite Rminus_0_r, sin_0, cos_0.
  set (phi := toRadians 21.4225). set (lam := toRadians 39.8262).
  assert (Hphi : 0 < phi < PI / 2) by (unfold phi, toRadians; lra).
  assert (Hlam : 0 < lam < PI / 2) by (unfold lam, toRadians; lra).
  replace (1 * sin phi - 0 * cos phi * cos lam) with (sin phi) by ring.
  assert (Hy : 0 < sin lam * cos phi).
  { apply Rmult_lt_0_compat; [apply sin_gt_0 | apply cos_gt_0]; lra. }
  assert (Hx : 0 < sin phi) by (apply sin_gt_0; lra).
  pose proof (Ratan2_first_quadrant _ _ Hy Hx) as Hq.
  assert (Hd : 0 < toDegrees (Ratan2 (sin lam * cos phi) (sin phi)) < 90).
  { rewrite <- toDegrees_0, <- toDegrees_right_angle.
    destruct (toDegrees_bounds _ 0 (PI / 2) (conj (proj1 Hq) (Rlt_le _ _ (proj2 Hq)))) as [H1 _].
    split; [exact H1 |].
    unfold toDegrees. apply Rmult_lt_compat_r; [| lra].
    apply Rmult_lt_0_compat; [lra | now apply Rinv_0_lt_compat]. }
  rewrite normalize360_id; lra.
Qed.

(** *** The claims on the two angle computations *)

(** C1: for every observer coordinate in degrees, [calculateQiblaDirection]
    stores the initial great-circle bearing towards the Kaaba at
    (21.4225, 39.8262): both points converted to radians,
    [y = sin(dlon) * cos(lat2)],
    [x = cos(lat1) * sin(lat2) - sin(lat1) * cos(lat2) * cos(dlon)],
    [atan2(y, x)] converted to degrees and normalized as
    [(bearing + 360) mod 360]; nothing else of the state changes. *)
Theorem calculateQiblaDirection_bearing (lat lon : R) (st : State) :
  let st' := calculateQiblaDirection (mkCoords (Num lat) (Num lon)) st in
  qiblaDirection st' = Num (computeBearing lat lon 21.4225 39.8262)
  /\ computeBearing lat lon 21.4225 39.8262
     = Rrem (Ratan2 (sin (39.8262 * (PI / 180) - lon * (PI / 180))
                       * cos (21.4225 * (PI / 180)))
                    (cos (lat * (PI / 180)) * sin (21.4225 * (PI / 180))
                       - sin (lat * (PI / 180)) * cos (21.4225 * (PI / 180))
                         * cos (39.8262 * (PI / 180) - lon * (PI / 180)))
               * (180 / PI) + 360) 360
  /\ heading st' = heading st
  /\ magnetometerData st' = magnetometerData st
  /\ location st' = location st.
Proof.
  cbv zeta. split; [apply qiblaDirection_finite |].
  split; [reflexivity |]. now cbn.
Qed.

(** C2: for every finite observer coordinate the bearing stored by
    [calculateQiblaDirection] is a number in [0, 360), and for every finite
    magnetometer sample the heading stored by [calculateHeading] is a
    number in [0, 360), never [NaN]; on the sample (0, 0, 0) it is 0. *)
Theorem bearing_and_heading_in_range :
  (forall (lat lon : R) (st : State),
      normalized (qiblaDirection
                    (calculateQiblaDirection (mkCoords (Num lat) (Num lon)) st)))
  /\ (forall (OS : string) (x y z : R) (st : State),
      normalized (heading
                    (calculateHeading OS
                       (setMagnetometerData (mkSample (Num x) (Num y) (Num z)) st))))
  /\ (forall (OS : string) (st : State),
      heading (calculateHeading OS
                 (setMagnetometerData (mkSample (Num 0) (Num 0) (Num 0)) st))
      = Num 0).
Proof.
  split; [| split].
  - intros lat lon st. eexists. split; [apply qiblaDirection_finite |].
    apply computeBearing_range.
  - intros OS x y z st. eexists. split.
    + apply (heading_finite OS x y (Num z)). reflexivity.
    + apply computeHeading_range.
  - intros OS st. rewrite (heading_finite OS 0 0 (Num 0)) by reflexivity.
    now rewrite computeHeading_origin.
Qed.

(** C3: [calculateHeading] uses one of exactly two formulas, chosen by the
    platform: on iOS the angle is [atan2(y, x)] in degrees, on every other
    platform it is [atan2(x, y)] in degrees; either is then normalized
    into [0, 360). *)
Theorem calculateHeading_platform (OS : string) (x y : R) (z : number)
    (st : State) :
  let h := heading (calculateHeading OS
                      (setMagnetometerData (mkSample (Num x) (Num y) z) st)) in
  h = Num (computeHeading (platformKind OS) x y)
  /\ h = (if String.eqb OS "ios"
          then Num (Rrem (Ratan2 y x * (180 / PI) + 360) 360)
          else Num (Rrem (Ratan2 x y * (180 / PI) + 360) 360))
  /\ normalized h.
Proof.
  cbv zeta. rewrite (heading_finite OS x y z) by reflexivity.
  split; [reflexivity |]. split.
  - unfold platformKind. destruct (String.eqb OS "ios"); reflexivity.
  - eexists. split; [reflexivity | apply computeHeading_range].
Qed.

Lemma sub_antisym (a b : number) : sub a b = neg (sub b a).
Proof.
  destruct a, b; cbn; try reflexivity. f_equal. ring.
Qed.

(** C4: the rotation of the Qibla indicator is exactly bearing minus
    heading and the rotation of the rose is exactly minus heading, neither
    being normalized (the first can be negative and, on operands that are
    not themselves normalized, exceed 360); hence swapping bearing and
    heading negates the display rotation. *)
Theorem display_rotation_exact :
  (forall st : State,
      needleRotation st = sub (qiblaDirection st) (heading st)
      /\ compassRotation st = neg (heading st))
  /\ (forall b h : R, computeDisplayRotation (Num b) (Num h) = Num (b - h))
  /\ computeDisplayRotation (Num 10) (Num 350) = Num (-340)
  /\ computeDisplayRotation (Num 720) (Num 0) = Num 720
  /\ (forall b h : number,
      computeDisplayRotation b h = neg (computeDisplayRotation h b)).
Proof.
  split; [intros st; split; reflexivity |].
  split; [intros b h; reflexivity |].
  split; [cbn; f_equal; lra |].
  split; [cbn; f_equal; lra |].
  intros b h. unfold computeDisplayRotation, needleRotation. cbn.
  apply sub_antisym.
Qed.

(** C6: with the observer at the target the bearing is finite and equal to
    0: [atan2(0, 0) = 0].  This holds of the formula for every coordinate,
    and of [calculateQiblaDirection] at the Kaaba, its only target. *)
Theorem bearing_observer_at_target :
  (forall lat lon : R, computeBearing lat lon lat lon = 0)
  /\ (forall st : State,
      qiblaDirection
        (calculateQiblaDirection (mkCoords KAABA_LATITUDE KAABA_LONGITUDE) st)
      = Num 0).
Proof.
  split; [apply computeBearing_same |].
  intros st. unfold KAABA_LATITUDE, KAABA_LONGITUDE.
  rewrite qiblaDirection_finite. f_equal. apply computeBearing_same.
Qed.

(** C7: two samples that agree on [x] and [y] give the same heading,
    whatever their [z]. *)
Theorem calculateHeading_ignores_z (OS : string) (x y z1 z2 : number)
    (st : State) :
  heading (calculateHeading OS (setMagnetometerData (mkSample x y z1) st))
  = heading (calculateHeading OS (setMagnetometerData (mkSample x y z2) st)).
Proof. reflexivity. Qed.

(** C8: for the observer at latitude 0, longitude 0 the bearing stored by
    [calculateQiblaDirection] lies strictly between 0 and 90 degrees. *)
Theorem bearing_from_equator_north_east (st : State) :
  exists b : R,
    qiblaDirection (calculateQiblaDirection (mkCoords (Num 0) (Num 0)) st)
    = Num b
    /\ 0 < b < 90.
Proof.
  eexists. split; [apply qiblaDirection_finite | apply computeBearing_equator].
Qed.

(** *** What reaches the rotation transforms *)

Lemma finiteSample_heading (OS : string) (st : State) :
  finiteSample (magnetometerData st) ->
  normalized (heading (calculateHeading OS st)).
Proof.
  destruct (magnetometerData st) as [sx sy sz] eqn:E.
  intros ([rx Hx] & [ry Hy] & _). cbn in Hx, Hy. subst sx sy.
  eexists. split; [apply (heading_finite OS rx ry sz st E) |].
  apply computeHeading_range.
Qed.

Lemma headingEffect_invariant (OS : string) (st : State) :
  stateInvariant st -> stateInvariant (headingEffect OS st).
Proof.
  intros (Hd & Hq & Hh). unfold headingEffect.
  destruct (location st); [| exact (conj Hd (conj Hq Hh))].
  destruct (calculateHeading_frame OS st) as (Eq & Ed & _).
  unfold stateInvariant. rewrite Eq, Ed.
  split; [exact Hd |]. split; [exact Hq |].
  now apply finiteSample_heading.
Qed.

Lemma step_invariant (OS : string) (ev : Event) (st : State) :
  finiteEvent ev -> stateInvariant st -> stateInvariant (step OS ev st).
Proof.
  intros Hev (Hd & Hq & Hh). destruct ev as [c | d]; cbn [step].
  - apply headingEffect_invariant.
    destruct c as [la lo]. destruct Hev as [[lat Hla] [lon Hlo]].
    cbn in Hla, Hlo. subst la lo.
    split; [exact Hd |]. split; [| exact Hh].
    eexists. split; [apply qiblaDirection_finite | apply computeBearing_range].
  - apply headingEffect_invariant.
    split; [exact Hev |]. split; assumption.
Qed.

Lemma zero_normalized : normalized (Num 0).
Proof. exists 0. split; [reflexivity | lra]. Qed.

Lemma reachable_invariant (OS : string) (st : State) :
  reachable OS st -> stateInvariant st.
Proof.
  induction 1 as [| ev st Hr IH Hev].
  - split; [| split; apply zero_normalized].
    repeat split; now exists 0.
  - now apply step_invariant.
Qed.

Lemma facingEast_reachable : reachable "android" facingEast.
Proof.
  unfold facingEast. apply reachable_step.
  - apply reachable_step; [apply reachable_init |].
    split; now eexists.
  - repeat split; now eexists.
Qed.

Lemma step_fix_location (OS : string) (c : Coords) (st : State) :
  location (step OS (LocationFix c) st) = Some c.
Proof.
  cbn [step]. unfold headingEffect.
  destruct (location (calculateQiblaDirection c (setLocation (Some c) st))) eqn:E.
  - destruct (calculateHeading_frame OS
                (calculateQiblaDirection c (setLocation (Some c) st)))
      as (_ & _ & El).
    rewrite El. reflexivity.
  - discriminate E.
Qed.

Lemma step_reading_heading (OS : string) (x y : R) (z : number) (st : State) :
  location st <> None ->
  heading (step OS (MagnetometerReading (mkSample (Num x) (Num y) z)) st)
  = Num (computeHeading (platformKind OS) x y).
Proof.
  intros Hl. cbn [step]. unfold headingEffect.
  cbn [setMagnetometerData location].
  destruct (location st); [| contradiction].
  now apply (heading_finite OS x y z).
Qed.

Lemma facingEast_heading : heading facingEast = Num 90.
Proof.
  unfold facingEast. rewrite step_reading_heading.
  - f_equal.
    change (computeHeading (platformKind "android") 1 0)
      with (normalize360 (toDegrees (Ratan2 1 0))).
    assert (E : Ratan2 1 0 = PI / 2).
    { unfold Ratan2.
      destruct (Rlt_dec 0 0) as [H | _]; [lra |].
      destruct (Rlt_dec 0 1) as [_ | H]; [reflexivity | lra]. }
    rewrite E, toDegrees_right_angle. apply normalize360_id. lra.
  - rewrite step_fix_location. discriminate.
Qed.

(** C5, as stated: it fails, the rose rotation of a device facing east
    being -90. *)
Lemma rose_rotation_negative :
  ~ (forall (OS : string) (st : State),
        reachable OS st -> allAnglesNormalized st).
Proof.
  intros H. destruct (H _ _ facingEast_reachable) as (_ & _ & (r & Hr & Hlo & _) & _).
  change (neg (heading facingEast) = Num r) in Hr.
  rewrite facingEast_heading in Hr. injection Hr as Hr. lra.
Qed.

(** C5, amended: in every reachable state the stored [qiblaDirection] and
    [heading] are in [0, 360); the two angles given to the rotation
    transforms are not normalized: the rose rotation, minus the heading,
    lies in (-360, 0], and the indicator rotation, bearing minus heading,
    lies in (-360, 360). *)
Theorem rendered_angles_bounds (OS : string) (st : State) :
  reachable OS st ->
  normalized (qiblaDirection st)
  /\ normalized (heading st)
  /\ (exists r, roseRotate (render st) = Num r /\ -360 < r <= 0)
  /\ (exists r, indicatorRotate (render st) = Num r /\ -360 < r < 360).
Proof.
  intros Hr. destruct (reachable_invariant OS st Hr) as (_ & Hq & Hh).
  split; [exact Hq |]. split; [exact Hh |].
  destruct Hq as (q & Eq & Hq), Hh as (h & Eh & Hh).
  change (roseRotate (render st)) with (neg (heading st)).
  change (indicatorRotate (render st)) with (sub (qiblaDirection st) (heading st)).
  rewrite Eq, Eh. cbn [neg sub].
  split; eexists; (split; [reflexivity | lra]).
Qed.

Lemma rendered_angles_bounds_witness :
  reachable "android" facingEast
  /\ roseRotate (render facingEast) = Num (- 90)
  /\ (exists r, indicatorRotate (render facingEast) = Num r /\ -360 < r < 360).
Proof.
  split; [exact facingEast_reachable |].
  split.
  - change (neg (heading facingEast) = Num (- 90)).
    now rewrite facingEast_heading.
  - exact (proj2 (proj2 (proj2
             (rendered_angles_bounds "android" facingEast facingEast_reachable)))).
Defined.

End QiblaProofs.

(** ** The Tasbeeh store: expiry and reset *)

Module TasbeehProofs.

Import JS JSFacts Tasbeeh.
Local Open Scope R_scope.

Lemma STORAGE_EXPIRY_TIME_value : STORAGE_EXPIRY_TIME = Num (30 * 60 * 1000).
Proof. reflexivity. Qed.

Lemma gt_Num (r s : R) : gt (Num r) (Num s) = true <-> r > s.
Proof.
  unfold gt. destruct (Rgt_dec r s); split; intros; try assumption;
    try reflexivity; try discriminate; contradiction.
Qed.

Lemma gt_Num_false (r s : R) : gt (Num r) (Num s) = false <-> r <= s.
Proof.
  unfold gt. destruct (Rgt_dec r s) as [H | H]; split; intros H';
    try reflexivity; try discriminate; lra.
Qed.

Lemma eqb_nonempty (s : string) : s <> "" -> String.eqb s "" = false.
Proof. intros H. now apply String.eqb_neq. Qed.

Section Runtime.

Variable JSON_parse : string -> option JSValue.
Variable JSON_stringify : JSValue -> option string.
Variable StringToNumber : string -> number.
Variable ObjectToNumber : JSValue -> number.

#[local] Abbreviation get :=
  (getWithExpiry JSON_parse StringToNumber ObjectToNumber).
#[local] Abbreviation save := (saveWithExpiry JSON_stringify).

Lemma getWithExpiry_absent (key : string) (now : number) (storage : Storage) :
  storage !! key = None -> get key now storage = (VNull, storage).
Proof. intros H. unfold getWithExpiry. now rewrite H. Qed.

Lemma getWithExpiry_unparseable (key s : string) (now : number)
    (storage : Storage) :
  storage !! key = Some s -> JSON_parse s = None ->
  get key now storage = (VNull, storage).
Proof.
  intros H Hp. unfold getWithExpiry. rewrite H.
  destruct (String.eqb s ""); [reflexivity |]. now rewrite Hp.
Qed.

(** A stored object with a numeric timestamp: expired, it is removed and
    [null] is returned; otherwise its [value] is returned. *)
Lemma getWithExpiry_item (key s : string) (now ts : R)
    (fields : gmap string JSValue) (storage : Storage) :
  storage !! key = Some s -> s <> "" ->
  JSON_parse s = Some (VObject fields) ->
  fields !! "timestamp" = Some (VNumber (Num ts)) ->
  get key (Num now) storage
  = if Rgt_dec (now - ts) 1800000
    then (VNull, delete key storage)
    else (default VUndefined (fields !! "value"), storage).
Proof.
  intros H Hs Hp Ht. unfold getWithExpiry.
  rewrite H, (eqb_nonempty s Hs), Hp. cbn [getProp].
  rewrite Ht. cbn [default from_option Datatypes.id ToNumber sub].
  rewrite STORAGE_EXPIRY_TIME_value.
  destruct (Rgt_dec (now - ts) 1800000) as [Hold | Hnew].
  - assert (E : gt (Num (now - ts)) (Num (30 * 60 * 1000)) = true)
      by (apply gt_Num; lra).
    now rewrite E.
  - assert (E : gt (Num (now - ts)) (Num (30 * 60 * 1000)) = false)
      by (apply gt_Num_false; lra).
    now rewrite E.
Qed.

(** C9, amended: for a stored item that is an object holding a numeric
    timestamp, [getWithExpiry] returns the value of the item when the
    timestamp is at most 30 minutes (1,800,000 ms) behind the current
    time, and otherwise returns [null] and removes the item from the
    storage.  An absent item and an unparseable one give [null]; so a
    value saved at time [t0] and read more than 30 minutes later is
    absent and not the saved value. *)
Theorem getWithExpiry_thirty_minutes (key : string) (now : R)
    (storage : Storage) :
  (storage !! key = None -> get key (Num now) storage = (VNull, storage))
  /\ (forall s : string,
        storage !! key = Some s -> JSON_parse s = None ->
        get key (Num now) storage = (VNull, storage))
  /\ (forall (s : string) (fields : gmap string JSValue) (ts : R),
        storage !! key = Some s -> s <> "" ->
        JSON_parse s = Some (VObject fields) ->
        fields !! "timestamp" = Some (VNumber (Num ts)) ->
        (now - ts > 1800000 ->
         get key (Num now) storage = (VNull, delete key storage))
        /\ (now - ts <= 1800000 ->
            get key (Num now) storage
            = (default VUndefined (fields !! "value"), storage)))
  /\ (forall (value : JSValue) (t0 : R) (s : string)
             (fields : gmap string JSValue),
        JSON_stringify
          (VObject (<["value" := value]> {["timestamp" := VNumber (Num t0)]}))
        = Some s ->
        s <> "" ->
        JSON_parse s = Some (VObject fields) ->
        fields !! "timestamp" = Some (VNumber (Num t0)) ->
        now - t0 > 1800000 ->
        get key (Num now) (save key value (Num t0) storage)
        = (VNull, delete key storage)).
Proof.
  split; [apply getWithExpiry_absent |].
  split; [intros s; apply getWithExpiry_unparseable |].
  split.
  - intros s fields ts H Hs Hp Ht.
    rewrite (getWithExpiry_item key s now ts fields storage H Hs Hp Ht).
    split; intros Hage; destruct (Rgt_dec (now - ts) 1800000);
      try reflexivity; lra.
  - intros value t0 s fields Hstr Hs Hp Ht Hage.
    unfold saveWithExpiry. rewrite Hstr.
    rewrite (getWithExpiry_item key s now t0 fields _
               (lookup_insert_eq storage key s) Hs Hp Ht).
    destruct (Rgt_dec (now - t0) 1800000); [| lra].
    now rewrite delete_insert_eq.
Qed.

End Runtime.

Lemma getWithExpiry_thirty_minutes_witness :
  getWithExpiry parseSaved (fun _ => NaN) (fun _ => NaN)
    TASBEEH_COUNTS_KEY (Num 1800001) {[TASBEEH_COUNTS_KEY := "saved-counts"]}
  = (VNull, delete TASBEEH_COUNTS_KEY {[TASBEEH_COUNTS_KEY := "saved-counts"]}).
Proof.
  refine (proj1 (proj1 (proj2 (proj2
            (getWithExpiry_thirty_minutes parseSaved (fun _ => None)
               (fun _ => NaN) (fun _ => NaN)
               TASBEEH_COUNTS_KEY 1800001
               {[TASBEEH_COUNTS_KEY := "saved-counts"]})))
            "saved-counts" savedCounts 0 _ _ _ _) _).
  - apply lookup_singleton_eq.
  - discriminate.
  - reflexivity.
  - unfold savedCounts. rewrite lookup_insert_ne by discriminate.
    apply lookup_singleton_eq.
  - lra.
Defined.

(** C9, as stated: it fails.  A stored object without a timestamp is
    handed back at any time, here 1,800,001 ms: its age is [NaN] and the
    comparison with the expiry time is false. *)
Lemma value_without_timestamp_returned : ~ valueOnlyWhenFresh.
Proof.
  intros H.
  destruct (H parseBare (fun _ => NaN) (fun _ => NaN)
              TASBEEH_COUNTS_KEY 1800001 {[TASBEEH_COUNTS_KEY := "bare"]}
              "bare" {["value" := VNumber (Num 5)]} (VNumber (Num 5)))
    as (ts & Hts & _).
  - apply lookup_singleton_eq.
  - reflexivity.
  - apply lookup_singleton_eq.
  - discriminate.
  - unfold getWithExpiry. rewrite lookup_singleton_eq.
    cbn [String.eqb Ascii.eqb Bool.eqb parseBare getProp].
    rewrite lookup_singleton_ne by discriminate.
    rewrite lookup_singleton_eq. reflexivity.
  - rewrite lookup_singleton_ne in Hts by discriminate. discriminate Hts.
Qed.

(** C10: [handleReset] sets the count of the selected item to 0 in the
    counts map and leaves every other key as it was; with nothing selected
    it changes nothing. *)
Theorem handleReset_frame (st : State) :
  (forall sel : AdhkarItem,
      selectedAdhkar st = Some sel ->
      counts (handleReset st) !! id sel = Some (Num 0)
      /\ (forall k : string,
            k <> id sel -> counts (handleReset st) !! k = counts st !! k)
      /\ count (handleReset st) = Num 0)
  /\ (selectedAdhkar st = None -> handleReset st = st).
Proof.
  unfold handleReset. split.
  - intros sel Hsel. rewrite Hsel. cbn [counts count].
    split; [apply lookup_insert_eq |]. split; [| reflexivity].
    intros k Hk. apply lookup_insert_ne. congruence.
  - intros Hsel. now rewrite Hsel.
Qed.

Lemma handleReset_frame_witness :
  counts (handleReset counting) !! "subhanallah" = Some (Num 0)
  /\ counts (handleReset counting) !! "alhamdulillah" = Some (Num 7)
  /\ handleReset initialState = initialState.
Proof.
  destruct (proj1 (handleReset_frame counting) subhanallah eq_refl)
    as (Hzero & Hothers & _).
  split; [exact Hzero |]. split.
  - rewrite (Hothers "alhamdulillah") by discriminate.
    unfold counting. cbn [counts].
    rewrite lookup_insert_ne by discriminate. apply lookup_singleton_eq.
  - exact (proj2 (handleReset_frame initialState) eq_refl).
Defined.

End TasbeehProofs.

(** ** The expiring store: reads, writes and the cleanup together *)

Module TasbeehStore.

Import JS JSFacts Tasbeeh TasbeehProofs.
Local Open Scope R_scope.

Section Runtime.

Variable JSON_parse : string -> option JSValue.
Variable JSON_stringify : JSValue -> option string.
Variable StringToNumber : string -> number.
Variable ObjectToNumber : JSValue -> number.

#[local] Abbreviation get :=
  (getWithExpiry JSON_parse StringToNumber ObjectToNumber).
#[local] Abbreviation save := (saveWithExpiry JSON_stringify).
#[local] Abbreviation clear :=
  (clearExpiredItems JSON_parse StringToNumber ObjectToNumber).

#[local] Abbreviation isExpired :=
  (expired JSON_parse StringToNumber ObjectToNumber).

(** What a read returns depends on the entry of its key alone. *)
Lemma get_value_lookup (key : string) (now : number) (s1 s2 : Storage) :
  s1 !! key = s2 !! key -> fst (get key now s1) = fst (get key now s2).
Proof.
  intros H. unfold getWithExpiry. rewrite H.
  repeat case_match; reflexivity.
Qed.

(** A read deletes its key exactly when the entry is expired, and then
    answers [null]. *)
Lemma get_storage (key : string) (now : number) (storage : Storage) :
  snd (get key now storage)
  = if isExpired now (storage !! key) then delete key storage else storage.
Proof.
  unfold getWithExpiry, expired.
  destruct (storage !! key) as [str |]; [| reflexivity].
  repeat case_match; reflexivity.
Qed.

Lemma get_expired_null (key : string) (now : number) (storage : Storage) :
  isExpired now (storage !! key) = true -> fst (get key now storage) = VNull.
Proof.
  unfold getWithExpiry, expired.
  destruct (storage !! key) as [str |]; [| discriminate].
  repeat case_match; try discriminate; reflexivity.
Qed.

(** A read deletes at most its own key, and reading a second time gives
    the same answer and the same storage. *)
Theorem getWithExpiry_settles (key : string) (now : number)
    (storage : Storage) :
  let r := get key now storage in
  get key now (snd r) = r
  /\ (forall k : string, k <> key -> snd r !! k = storage !! k)
  /\ (snd r !! key = storage !! key
      \/ (snd r !! key = None /\ fst r = VNull)).
Proof.
  cbv zeta. rewrite get_storage.
  destruct (isExpired now (storage !! key)) eqn:E.
  - split; [| split].
    + rewrite (getWithExpiry_absent JSON_parse StringToNumber ObjectToNumber)
        by apply lookup_delete_eq.
      rewrite (surjective_pairing (get key now storage)).
      now rewrite get_storage, E, (get_expired_null _ _ _ E).
    + intros k Hk. now apply lookup_delete_ne.
    + right. split; [apply lookup_delete_eq | now apply get_expired_null].
  - split; [| split].
    + reflexivity.
    + reflexivity.
    + now left.
Qed.

(** A value saved at [t0] and read at most 30 minutes later comes back as
    it was saved, and the read leaves the storage alone. *)
Theorem save_then_get_fresh (key : string) (value : JSValue) (t0 now : R)
    (s : string) (storage : Storage) :
  let item := VObject (<["value" := value]> {["timestamp" := VNumber (Num t0)]}) in
  JSON_stringify item = Some s ->
  s <> "" ->
  JSON_parse s = Some item ->
  now - t0 <= 1800000 ->
  get key (Num now) (save key value (Num t0) storage)
  = (value, <[key := s]> storage).
Proof.
  cbv zeta. intros Hstr Hs Hp Hage. unfold saveWithExpiry. rewrite Hstr.
  rewrite (getWithExpiry_item JSON_parse StringToNumber ObjectToNumber
             key s now t0 _ _ (lookup_insert_eq storage key s) Hs Hp).
  - destruct (Rgt_dec (now - t0) 1800000); [lra |].
    now rewrite lookup_insert_eq.
  - rewrite lookup_insert_ne by discriminate. apply lookup_singleton_eq.
Qed.

(** Saving under one key does not change what a read of another key
    answers, and the two commute on the storage. *)
Theorem save_other_key (key key' : string) (value : JSValue) (t0 now : number)
    (storage : Storage) :
  key <> key' ->
  get key' now (save key value t0 storage)
  = (fst (get key' now storage),
     save key value t0 (snd (get key' now storage))).
Proof.
  intros Hne. unfold saveWithExpiry.
  destruct (JSON_stringify _) as [s |]; [| now destruct (get key' now storage)].
  assert (Hl : <[key := s]> storage !! key' = storage !! key')
    by now apply lookup_insert_ne.
  rewrite (surjective_pairing (get key' now (<[key := s]> storage))).
  rewrite (get_value_lookup key' now _ _ Hl). f_equal.
  rewrite !get_storage, Hl.
  destruct (isExpired now (storage !! key')); [| reflexivity].
  apply delete_insert_ne. congruence.
Qed.

(** An item without a [timestamp] never expires: the age is [NaN], the
    comparison is false, and the value is handed back whatever the time,
    the storage left as it is. *)
Theorem item_without_timestamp_kept (key s : string) (now : number)
    (fields : gmap string JSValue) (storage : Storage) :
  storage !! key = Some s -> s <> "" ->
  JSON_parse s = Some (VObject fields) ->
  fields !! "timestamp" = None ->
  get key now storage = (default VUndefined (fields !! "value"), storage).
Proof.
  intros H Hs Hp Ht. unfold getWithExpiry.
  rewrite H, (eqb_nonempty s Hs), Hp. cbn [getProp].
  rewrite Ht. cbn [default from_option Datatypes.id ToNumber].
  destruct now; reflexivity.
Qed.

(** Each entry after the cleanup is the entry before it, or is gone; it
    is gone only for a listed key whose item is expired. *)
Lemma clear_lookup (keys : list string) (now : number) (storage : Storage)
    (k : string) :
  clear keys now storage !! k = storage !! k
  \/ (clear keys now storage !! k = None
      /\ k ∈ keys
      /\ isExpired now (storage !! k) = true).
Proof.
  revert storage. induction keys as [| key keys' IH]; intros storage.
  - now left.
  - cbn [clearExpiredItems].
    assert (Hskip : clear keys' now storage !! k = storage !! k
                    \/ (clear keys' now storage !! k = None
                        /\ k ∈ key :: keys'
                        /\ isExpired now (storage !! k) = true)).
    { destruct (IH storage) as [E | (E & Hin & Hx)]; [now left | right].
      split; [exact E |]. split; [now apply list_elem_of_further | exact Hx]. }
    destruct (storage !! key) as [str |] eqn:Ekey; [| exact Hskip].
    destruct (String.eqb str "") eqn:Eempty; [exact Hskip |].
    destruct (JSON_parse str) as [item |] eqn:Eparse; [| now left].
    destruct (getProp item "timestamp") as [ts |] eqn:Ets; [| now left].
    destruct (gt _ STORAGE_EXPIRY_TIME) eqn:Egt; [| exact Hskip].
    assert (Hexp : isExpired now (storage !! key) = true).
    { unfold expired. now rewrite Ekey, Eempty, Eparse, Ets. }
    destruct (decide (k = key)) as [-> | Hne].
    + right. split; [| split; [apply list_elem_of_here | exact Hexp]].
      destruct (IH (delete key storage)) as [E | (E & _)];
        [rewrite E; apply lookup_delete_eq | exact E].
    + destruct (IH (delete key storage)) as [E | (E & Hin & Hx)].
      * left. rewrite E. apply lookup_delete_ne. congruence.
      * right. split; [exact E |]. split; [now apply list_elem_of_further |].
        rewrite lookup_delete_ne in Hx by congruence. exact Hx.
Qed.

(** The cleanup only removes: an entry it takes away belongs to a listed
    key, and a read of that key would answer [null] and delete it too.
    Every other entry, fresh or not listed, is left as it was. *)
Theorem clearExpiredItems_only_expired (keys : list string) (now : number)
    (storage : Storage) (k : string) :
  clear keys now storage !! k = storage !! k
  \/ (clear keys now storage !! k = None
      /\ k ∈ keys
      /\ get k now storage = (VNull, delete k storage)).
Proof.
  destruct (clear_lookup keys now storage k) as [E | (E & Hin & Hx)];
    [now left | right].
  split; [exact E |]. split; [exact Hin |].
  rewrite (surjective_pairing (get k now storage)).
  now rewrite get_storage, Hx, (get_expired_null _ _ _ Hx).
Qed.

(** A read answers the same before and after a cleanup, for every key and
    every list of keys cleaned. *)
Theorem clearExpiredItems_then_get (keys : list string) (now : number)
    (storage : Storage) (k : string) :
  fst (get k now (clear keys now storage)) = fst (get k now storage).
Proof.
  destruct (clear_lookup keys now storage k) as [E | (E & _ & Hx)].
  - now apply get_value_lookup.
  - rewrite (getWithExpiry_absent JSON_parse StringToNumber ObjectToNumber)
      by exact E.
    symmetry. now apply get_expired_null.
Qed.

(** The cleanup stops at the first listed key whose stored text does not
    parse, or parses to [null]: the keys listed after it are not examined,
    whatever they hold. *)
Theorem clearExpiredItems_stops (key s : string) (before after : list string)
    (now : number) (storage : Storage) :
  storage !! key = Some s -> s <> "" ->
  JSON_parse s = None \/ JSON_parse s = Some VNull ->
  clear (before ++ key :: after) now storage = clear before now storage.
Proof.
  intros H Hs Hp. revert storage H.
  induction before as [| k before IH]; intros storage H.
  - cbn [app clearExpiredItems].
    rewrite H, (eqb_nonempty s Hs). now destruct Hp as [-> | ->].
  - cbn [app clearExpiredItems].
    destruct (storage !! k) as [str |] eqn:Ek; [| now apply IH].
    destruct (String.eqb str "") eqn:Eempty; [now apply IH |].
    destruct (JSON_parse str) as [item |] eqn:Eparse; [| reflexivity].
    destruct (getProp item "timestamp") as [ts |] eqn:Ets; [| reflexivity].
    destruct (gt _ STORAGE_EXPIRY_TIME); [| now apply IH].
    apply IH. rewrite lookup_delete_ne; [exact H |].
    intros ->. rewrite H in Ek. injection Ek as <-.
    destruct Hp as [Hp | Hp]; rewrite Hp in Eparse; [discriminate |].
    injection Eparse as <-. discriminate Ets.
Qed.


End Runtime.

Lemma getWithExpiry_settles_witness :
  snd (getWithExpiry parseSaved (fun _ => NaN) (fun _ => NaN)
         TASBEEH_COUNTS_KEY (Num 1800001) twoEntries) !! LAST_TASBEEH_KEY
  = twoEntries !! LAST_TASBEEH_KEY.
Proof.
  apply (proj1 (proj2 (getWithExpiry_settles parseSaved (fun _ => NaN)
                         (fun _ => NaN) TASBEEH_COUNTS_KEY (Num 1800001)
                         twoEntries))).
  discriminate.
Defined.

Lemma save_then_get_fresh_witness :
  getWithExpiry parseSaved (fun _ => NaN) (fun _ => NaN)
    TASBEEH_COUNTS_KEY (Num 1000)
    (saveWithExpiry stringifySaved TASBEEH_COUNTS_KEY
       (VObject {["subhanallah" := VNumber (Num 33)]}) (Num 0) ∅)
  = (VObject {["subhanallah" := VNumber (Num 33)]},
     <[TASBEEH_COUNTS_KEY := "saved-counts"]> ∅).
Proof.
  apply (save_then_get_fresh parseSaved stringifySaved).
  - reflexivity.
  - discriminate.
  - reflexivity.
  - lra.
Defined.

Lemma save_other_key_witness :
  getWithExpiry parseSaved (fun _ => NaN) (fun _ => NaN)
    LAST_TASBEEH_KEY (Num 1000)
    (saveWithExpiry stringifySaved TASBEEH_COUNTS_KEY VNull (Num 0) ∅)
  = (fst (getWithExpiry parseSaved (fun _ => NaN) (fun _ => NaN)
            LAST_TASBEEH_KEY (Num 1000) ∅),
     saveWithExpiry stringifySaved TASBEEH_COUNTS_KEY VNull (Num 0)
       (snd (getWithExpiry parseSaved (fun _ => NaN) (fun _ => NaN)
               LAST_TASBEEH_KEY (Num 1000) ∅))).
Proof.
  apply (save_other_key parseSaved stringifySaved). discriminate.
Defined.

Lemma item_without_timestamp_kept_witness :
  getWithExpiry parseBare (fun _ => NaN) (fun _ => NaN)
    TASBEEH_COUNTS_KEY PosInf {[TASBEEH_COUNTS_KEY := "bare"]}
  = (VNumber (Num 5), {[TASBEEH_COUNTS_KEY := "bare"]}).
Proof.
  rewrite (item_without_timestamp_kept parseBare (fun _ => NaN) (fun _ => NaN)
             TASBEEH_COUNTS_KEY "bare" PosInf {["value" := VNumber (Num 5)]}).
  - now rewrite lookup_singleton_eq.
  - apply lookup_singleton_eq.
  - discriminate.
  - reflexivity.
  - apply lookup_singleton_ne. discriminate.
Defined.

Lemma clearExpiredItems_stops_witness :
  clearExpiredItems parseSaved (fun _ => NaN) (fun _ => NaN)
    [LAST_TASBEEH_KEY; TASBEEH_COUNTS_KEY] (Num 1800001) twoEntries
  = twoEntries.
Proof.
  apply (clearExpiredItems_stops parseSaved (fun _ => NaN) (fun _ => NaN)
           LAST_TASBEEH_KEY "garbage" []).
  - apply lookup_insert_eq.
  - discriminate.
  - left. reflexivity.
Defined.


End TasbeehStore.

(** ** The counter: selecting, pressing, resetting and the progress *)

Module TasbeehCounter.

Import JS JSFacts Tasbeeh.
Local Open Scope R_scope.

Lemma orElse_zero (n : number) : n <> NaN -> orElse n (Num 0) = n.
Proof.
  intros Hn. unfold orElse, truthy. destruct n as [r | | |]; try reflexivity.
  - destruct (Req_dec_T r 0) as [-> | _]; reflexivity.
  - contradiction.
Qed.

Lemma orElse_not_NaN (n : number) (r : R) : orElse n (Num r) <> NaN.
Proof.
  unfold orElse, truthy. destruct n as [q | | |]; try discriminate.
  destruct (Req_dec_T q 0); discriminate.
Qed.

Lemma countOf_not_NaN (cs : gmap string number) (k : string) :
  countOf cs k <> NaN.
Proof.
  unfold countOf. destruct (cs !! k); [apply orElse_not_NaN | discriminate].
Qed.

Lemma add_one_not_NaN (n : number) : n <> NaN -> add n (Num 1) <> NaN.
Proof. destruct n; intros H; try discriminate; contradiction. Qed.

Lemma countOf_insert (cs : gmap string number) (k : string) (n : number) :
  n <> NaN -> countOf (<[k := n]> cs) k = n.
Proof.
  intros Hn. unfold countOf. rewrite lookup_insert_eq. now apply orElse_zero.
Qed.

Lemma act_countInSync (a : Action) (st st' : State) :
  countInSync st -> act a st = Some st' -> countInSync st'.
Proof.
  intros Hinv Hact. destruct a as [item | | |]; cbn [act] in Hact.
  - injection Hact as <-. intros sel Hsel. cbn in Hsel.
    injection Hsel as <-. reflexivity.
  - unfold handleCounterPress in Hact.
    destruct (selectedAdhkar st) as [cur |] eqn:Ecur; [| discriminate].
    injection Hact as <-. intros sel Hsel. cbn [selectedAdhkar] in Hsel.
    rewrite ?Ecur in Hsel. injection Hsel as <-. cbn [count counts].
    rewrite countOf_insert; [reflexivity |].
    apply add_one_not_NaN. rewrite (Hinv cur Ecur). apply countOf_not_NaN.
  - injection Hact as <-. unfold handleReset.
    destruct (selectedAdhkar st) as [cur |] eqn:Ecur.
    + intros sel Hsel. cbn [selectedAdhkar] in Hsel.
      rewrite ?Ecur in Hsel. injection Hsel as <-. cbn [count counts].
      rewrite countOf_insert; [reflexivity | discriminate].
    + exact Hinv.
  - injection Hact as <-. exact Hinv.
Qed.

(** Whatever the user selects, presses, resets or leaves, the count
    shown stays the saved count of the selected item. *)
Theorem counter_stays_in_sync (l : list Action) (st st' : State) :
  countInSync st -> actAll l st = Some st' -> countInSync st'.
Proof.
  revert st. induction l as [| a l IH]; intros st Hinv Hrun.
  - injection Hrun as <-. exact Hinv.
  - cbn [actAll] in Hrun. destruct (act a st) as [st1 |] eqn:E; [| discriminate].
    apply (IH st1); [| exact Hrun]. exact (act_countInSync a st st1 Hinv E).
Qed.

Lemma counter_stays_in_sync_witness :
  countInSync
    {| counts := <["subhanallah" := add (countOf ∅ "subhanallah") (Num 1)]> ∅;
       selectedAdhkar := Some subhanallah;
       countViewVisible := false;
       count := add (countOf ∅ "subhanallah") (Num 1) |}.
Proof.
  apply (counter_stays_in_sync
           [SelectAdhkar subhanallah; CounterPress; Back] initialState).
  - intros sel Hsel. discriminate Hsel.
  - reflexivity.
Defined.

Lemma presses_from (n : nat) (st : State) (sel : AdhkarItem) (c : R) :
  selectedAdhkar st = Some sel -> count st = Num c ->
  exists st',
    actAll (replicate n CounterPress) st = Some st'
    /\ count st' = Num (c + INR n)
    /\ selectedAdhkar st' = Some sel
    /\ countViewVisible st' = countViewVisible st
    /\ (forall k : string, k <> id sel -> counts st' !! k = counts st !! k)
    /\ ((0 < n)%nat -> counts st' !! id sel = Some (Num (c + INR n))).
Proof.
  revert st c. induction n as [| n IH]; intros st c Hsel Hc.
  - exists st. cbn [replicate actAll INR].
    rewrite Rplus_0_r. repeat split; try assumption; try reflexivity. lia.
  - cbn [replicate actAll act]. unfold handleCounterPress. rewrite Hsel, Hc.
    cbn [add].
    set (st1 := {| counts := _; selectedAdhkar := _;
                   countViewVisible := _; count := _ |}).
    destruct (IH st1 (c + 1)) as (st' & Hrun & Hcount & Hs & Hv & Hothers & Hown);
      [reflexivity | reflexivity |].
    exists st'. rewrite S_INR.
    replace (c + (INR n + 1)) with (c + 1 + INR n) by ring.
    split; [exact Hrun |]. split; [exact Hcount |]. split; [exact Hs |].
    split; [exact Hv |]. split.
    + intros k Hk. rewrite (Hothers k Hk). cbn [st1 counts].
      apply lookup_insert_ne. congruence.
    + intros _. destruct n as [| n'].
      * cbn [replicate actAll] in Hrun. injection Hrun as <-.
        cbn [st1 counts INR]. rewrite Rplus_0_r. apply lookup_insert_eq.
      * apply Hown. lia.
Qed.

(** Selecting an item whose saved count is [c] and pressing the counter
    [n] times shows [c + n], saves [c + n] for that item once a press
    was made, and leaves every other count as it was. *)
Theorem select_then_presses (n : nat) (item : AdhkarItem) (st : State)
    (c : R) :
  countOf (counts st) (id item) = Num c ->
  exists st',
    actAll (SelectAdhkar item :: replicate n CounterPress) st = Some st'
    /\ count st' = Num (c + INR n)
    /\ selectedAdhkar st' = Some item
    /\ (forall k : string, k <> id item -> counts st' !! k = counts st !! k)
    /\ ((0 < n)%nat -> counts st' !! id item = Some (Num (c + INR n))).
Proof.
  intros Hc. cbn [actAll act].
  destruct (presses_from n (handleSelectAdhkar item st) item c)
    as (st' & Hrun & Hcount & Hs & _ & Hothers & Hown);
    [reflexivity | exact Hc |].
  exists st'. repeat split; assumption.
Qed.

Lemma select_then_presses_witness :
  exists st',
    actAll (SelectAdhkar subhanallah :: replicate 3 CounterPress) counting
    = Some st'
    /\ count st' = Num (12 + INR 3)
    /\ counts st' !! "alhamdulillah" = Some (Num 7).
Proof.
  destruct (select_then_presses 3 subhanallah counting 12)
    as (st' & Hrun & Hcount & _ & Hothers & _).
  - unfold countOf, counting. cbn [counts id subhanallah].
    rewrite lookup_insert_eq. apply orElse_zero. discriminate.
  - exists st'. split; [exact Hrun |]. split; [exact Hcount |].
    rewrite (Hothers "alhamdulillah") by discriminate.
    unfold counting. cbn [counts].
    rewrite lookup_insert_ne by discriminate. apply lookup_singleton_eq.
Defined.

(** A reset followed by [n] presses shows [n], whatever was counted
    before. *)
Theorem reset_then_presses (n : nat) (st : State) (sel : AdhkarItem) :
  selectedAdhkar st = Some sel ->
  exists st',
    actAll (Reset :: replicate n CounterPress) st = Some st'
    /\ count st' = Num (INR n)
    /\ counts st' !! id sel = Some (Num (INR n))
    /\ (forall k : string, k <> id sel -> counts st' !! k = counts st !! k).
Proof.
  intros Hsel. cbn [actAll act].
  destruct (presses_from n (handleReset st) sel 0)
    as (st' & Hrun & Hcount & _ & _ & Hothers & Hown).
  - unfold handleReset. now rewrite Hsel.
  - unfold handleReset. now rewrite Hsel.
  - exists st'. rewrite Rplus_0_l in Hcount, Hown.
    split; [exact Hrun |]. split; [exact Hcount |]. split.
    + destruct n as [| n'].
      * cbn [replicate actAll] in Hrun. injection Hrun as <-.
        unfold handleReset. rewrite Hsel. cbn [counts INR].
        apply lookup_insert_eq.
      * apply Hown. lia.
    + intros k Hk. rewrite (Hothers k Hk). unfold handleReset. rewrite Hsel.
      cbn [counts]. apply lookup_insert_ne. congruence.
Qed.

Lemma reset_then_presses_witness :
  exists st',
    actAll (Reset :: replicate 2 CounterPress) counting = Some st'
    /\ count st' = Num (INR 2)
    /\ counts st' !! "subhanallah" = Some (Num (INR 2)).
Proof.
  destruct (reset_then_presses 2 counting subhanallah eq_refl)
    as (st' & Hrun & Hcount & Hown & _).
  exists st'. repeat split; assumption.
Defined.

Lemma orElse_Num (r d : R) :
  orElse (Num r) (Num d) = Num (if Req_dec_T r 0 then d else r).
Proof. unfold orElse, truthy. now destruct (Req_dec_T r 0). Qed.

Lemma Zfloor_between (lo hi : Z) (a : R) :
  IZR lo <= a -> a < IZR hi + 1 -> (lo <= Zfloor a <= hi)%Z.
Proof.
  intros Hlo Hhi. destruct (Zfloor_bound a) as [H1 H2]. split.
  - now apply Zfloor_lub.
  - assert (H : IZR (Zfloor a) < IZR (hi + 1)) by (rewrite plus_IZR; lra).
    apply lt_IZR in H. lia.
Qed.

(** With an item selected, a non-negative count and a non-negative
    recommendation, the progress is count over target capped at 1, the
    target being 100 when the recommendation is 0: it lies in [0, 1],
    reaches 1 exactly when the count reaches the target, and the
    percentage shown is a whole number from 0 to 100. *)
Theorem calculateProgress_bounds (st : State) (sel : AdhkarItem) (c t : R) :
  selectedAdhkar st = Some sel ->
  count st = Num c -> 0 <= c ->
  recommended sel = Num t -> 0 <= t ->
  let target := if Req_dec_T t 0 then 100 else t in
  exists p : R,
    calculateProgress st = Num p
    /\ p = Rmin (c / target) 1
    /\ 0 <= p <= 1
    /\ (p = 1 <-> target <= c)
    /\ exists k : Z, progressPercent st = Num (IZR k) /\ (0 <= k <= 100)%Z.
Proof.
  intros Hsel Hc Hc0 Ht Ht0 target.
  assert (Htarget : 0 < target).
  { unfold target. destruct (Req_dec_T t 0); lra. }
  assert (Hq : 0 <= c / target).
  { apply Rmult_le_pos; [exact Hc0 | left; now apply Rinv_0_lt_compat]. }
  assert (Hprog : calculateProgress st = Num (Rmin (c / target) 1)).
  { unfold calculateProgress. rewrite Hsel, Hc, Ht, !orElse_Num.
    fold target. cbv zeta.
    replace (if Req_dec_T c 0 then 0 else c) with c
      by (destruct (Req_dec_T c 0); congruence).
    rewrite div_Num by lra. reflexivity. }
  assert (Hp : 0 <= Rmin (c / target) 1 <= 1).
  { split; [apply Rmin_glb; lra | apply Rmin_r]. }
  exists (Rmin (c / target) 1).
  split; [exact Hprog |]. split; [reflexivity |]. split; [exact Hp |]. split.
  - assert (Hiff : 1 <= c / target <-> target <= c).
    { split; intros H.
      - apply (Rmult_le_compat_r target) in H; [| lra].
        unfold Rdiv in H. rewrite Rmult_assoc, Rinv_l in H; lra.
      - apply (Rmult_le_compat_r (/ target)) in H;
          [| left; now apply Rinv_0_lt_compat].
        rewrite Rinv_r in H; [exact H | lra]. }
    rewrite <- Hiff. unfold Rmin.
    destruct (Rle_dec (c / target) 1); split; intros H; lra.
  - unfold progressPercent. rewrite Hprog. cbn [mul Math.round].
    eexists. split; [reflexivity |].
    apply Zfloor_between; lra.
Qed.

Lemma calculateProgress_bounds_witness :
  exists p : R,
    calculateProgress counting = Num p
    /\ p = Rmin (12 / 33) 1.
Proof.
  destruct (calculateProgress_bounds counting subhanallah 12 33)
    as (p & Hprog & Hp & _); try reflexivity; try lra.
  exists p. split; [exact Hprog |].
  rewrite Hp. destruct (Req_dec_T 33 0); [lra | reflexivity].
Defined.

(** The bar of the list and the progress of the counter view agree: for
    the selected item, with the count shown in sync with the saved one,
    the width drawn in the list is 100 times [calculateProgress]. *)
Theorem progressWidth_agrees (st : State) (sel : AdhkarItem) (c t : R) :
  selectedAdhkar st = Some sel ->
  countInSync st ->
  count st = Num c ->
  recommended sel = Num t ->
  progressWidth (counts st) sel = mul (calculateProgress st) (Num 100).
Proof.
  intros Hsel Hsync Hc Ht.
  unfold progressWidth, calculateProgress. cbv zeta.
  rewrite Hsel, <- (Hsync sel Hsel), Hc, Ht, !orElse_Num.
  set (target := if Req_dec_T t 0 then 100 else t).
  assert (Htarget : target <> 0).
  { unfold target. destruct (Req_dec_T t 0); [lra | assumption]. }
  replace (if Req_dec_T c 0 then 0 else c) with c
    by (destruct (Req_dec_T c 0); congruence).
  rewrite div_Num by exact Htarget. cbn [mul Math.min]. f_equal.
  unfold Rmin.
  destruct (Rle_dec (c / target * 100) 100), (Rle_dec (c / target) 1); lra.
Qed.

Lemma progressWidth_agrees_witness :
  progressWidth (counts counting) subhanallah
  = mul (calculateProgress counting) (Num 100).
Proof.
  apply (progressWidth_agrees counting subhanallah 12 33); try reflexivity.
  intros sel Hsel. injection Hsel as <-.
  unfold countOf, counting. cbn [counts count id subhanallah].
  rewrite lookup_insert_eq. symmetry. apply orElse_zero. discriminate.
Defined.

End TasbeehCounter.

(** ** The Qibla compass: where the bearing and the heading point *)

Module QiblaGeometry.

Import JS JSFacts SolatQibla QiblaProofs.
Local Open Scope R_scope.

(** A dividend below the divisor is its own remainder. *)
Lemma Rrem_small (n d : R) : 0 < d -> 0 <= n < d -> Rrem n d = n.
Proof.
  intros Hd [Hlo Hhi]. unfold Rrem.
  assert (Hinv : 0 < / d) by now apply Rinv_0_lt_compat.
  assert (H1 : 0 <= n / d) by (apply Rmult_le_pos; lra).
  assert (H2 : n / d < 1).
  { replace 1 with (d / d) by (field; lra). unfold Rdiv.
    apply Rmult_lt_compat_r; lra. }
  rewrite (Rtrunc_eq 0); [ring | lra | simpl; lra].
Qed.

Lemma normalize360_negative (a : R) :
  -360 <= a < 0 -> normalize360 a = a + 360.
Proof. intros Ha. unfold normalize360. apply Rrem_small; lra. Qed.









(** On the horizontal axis: 0 to the right, PI to the left. *)
Lemma Ratan2_axis_right (x : R) : 0 < x -> Ratan2 0 x = 0.
Proof.
  intros Hx. unfold Ratan2. destruct (Rlt_dec 0 x); [| contradiction].
  unfold Rdiv. now rewrite Rmult_0_l, atan_0.
Qed.

Lemma Ratan2_axis_left (x : R) : x < 0 -> Ratan2 0 x = PI.
Proof.
  intros Hx. unfold Ratan2. destruct (Rlt_dec 0 x); [lra |].
  destruct (Rlt_dec x 0); [| contradiction].
  destruct (Rle_dec 0 0); [| lra].
  unfold Rdiv. rewrite Rmult_0_l, atan_0. ring.
Qed.

Lemma Ratan2_axis_up (y : R) : 0 < y -> Ratan2 y 0 = PI / 2.
Proof.
  intros Hy. unfold Ratan2. destruct (Rlt_dec 0 0); [lra |].
  destruct (Rlt_dec 0 y); [reflexivity | contradiction].
Qed.

Lemma Ratan2_axis_down (y : R) : y < 0 -> Ratan2 y 0 = - (PI / 2).
Proof.
  intros Hy. unfold Ratan2. destruct (Rlt_dec 0 0); [lra |].
  destruct (Rlt_dec 0 y); [lra |].
  destruct (Rlt_dec y 0); [reflexivity | contradiction].
Qed.

(** The angle of a point does not depend on its distance to the origin. *)
Lemma Ratan2_scale (k y x : R) : 0 < k -> Ratan2 (k * y) (k * x) = Ratan2 y x.
Proof.
  intros Hk. unfold Ratan2.
  assert (Hq : x <> 0 -> k * y / (k * x) = y / x) by (intros; field; lra).
  assert (Sx : 0 < k * x <-> 0 < x) by (split; intros; nra).
  assert (Sx' : k * x < 0 <-> x < 0) by (split; intros; nra).
  assert (Sy : 0 < k * y <-> 0 < y) by (split; intros; nra).
  assert (Sy' : k * y < 0 <-> y < 0) by (split; intros; nra).
  assert (Sy0 : 0 <= k * y <-> 0 <= y) by (split; intros; nra).
  destruct (Rlt_dec 0 (k * x)), (Rlt_dec 0 x); try tauto.
  - rewrite Hq by lra. reflexivity.
  - destruct (Rlt_dec (k * x) 0), (Rlt_dec x 0); try tauto.
    + rewrite Hq by lra.
      destruct (Rle_dec 0 (k * y)), (Rle_dec 0 y); try tauto; reflexivity.
    + destruct (Rlt_dec 0 (k * y)), (Rlt_dec 0 y); try tauto; try reflexivity.
      destruct (Rlt_dec (k * y) 0), (Rlt_dec y 0); try tauto; reflexivity.
Qed.

Lemma toDegrees_straight_angle : toDegrees PI = 180.
Proof.
  replace PI with (1 * PI) at 1 by ring. rewrite toDegrees_PI. ring.
Qed.

(** From a point on the meridian of the Kaaba the Qibla is due north
    (0) at and below its latitude and due south (180) above it. *)
Theorem qibla_on_kaaba_meridian (lat : R) (st : State) :
  -90 <= lat <= 90 ->
  qiblaDirection
    (calculateQiblaDirection (mkCoords (Num lat) KAABA_LONGITUDE) st)
  = Num (if Rlt_dec 21.4225 lat then 180 else 0).
Proof.
  intros Hlat. pose proof PI_RGT_0 as Hpi.
  unfold KAABA_LONGITUDE. rewrite qiblaDirection_finite. f_equal.
  unfold computeBearing. cbv zeta.
  replace (toRadians 39.8262 - toRadians 39.8262) with 0 by ring.
  rewrite sin_0, cos_0.
  set (phi1 := toRadians lat). set (phi2 := toRadians 21.4225).
  replace (0 * cos phi2) with 0 by ring.
  replace (cos phi1 * sin phi2 - sin phi1 * cos phi2 * 1)
    with (sin (phi2 - phi1)) by (rewrite sin_minus; ring).
  assert (Hd : phi2 - phi1 = (21.4225 - lat) * (PI / 180))
    by (unfold phi1, phi2, toRadians; ring).
  destruct (Rlt_dec 21.4225 lat) as [Hn | Hs].
  - assert (Hx : sin (phi2 - phi1) < 0).
    { apply sin_lt_0_var; rewrite Hd; nra. }
    rewrite (Ratan2_axis_left _ Hx), toDegrees_straight_angle.
    apply normalize360_id. lra.
  - destruct (Req_dec_T lat 21.4225) as [-> | Hne].
    + replace (phi2 - phi1) with 0 by (rewrite Hd; ring).
      rewrite sin_0, Ratan2_origin, toDegrees_0. apply normalize360_id. lra.
    + assert (Hx : 0 < sin (phi2 - phi1)).
      { apply sin_gt_0; rewrite Hd; nra. }
      rewrite (Ratan2_axis_right _ Hx), toDegrees_0.
      apply normalize360_id. lra.
Qed.

Lemma qibla_on_kaaba_meridian_witness :
  qiblaDirection
    (calculateQiblaDirection (mkCoords (Num 60) KAABA_LONGITUDE) initialState)
  = Num (if Rlt_dec 21.4225 60 then 180 else 0).
Proof. apply qibla_on_kaaba_meridian. lra. Defined.




(** The bearing is the same for longitudes that differ by whole turns. *)
Theorem qibla_longitude_period (lat lon : R) (k : nat) (st : State) :
  qiblaDirection
    (calculateQiblaDirection (mkCoords (Num lat) (Num (lon - 360 * INR k))) st)
  = qiblaDirection
      (calculateQiblaDirection (mkCoords (Num lat) (Num lon)) st)
  /\ qiblaDirection
       (calculateQiblaDirection (mkCoords (Num lat) (Num (lon + 360 * INR k))) st)
     = qiblaDirection
         (calculateQiblaDirection (mkCoords (Num lat) (Num lon)) st).
Proof.
  pose proof PI_RGT_0 as Hpi.
  rewrite !qiblaDirection_finite. unfold computeBearing. cbv zeta.
  set (d := toRadians 39.8262 - toRadians lon).
  assert (Hm : toRadians 39.8262 - toRadians (lon - 360 * INR k)
               = d + 2 * INR k * PI)
    by (unfold d, toRadians; field; lra).
  assert (Hp : d = toRadians 39.8262 - toRadians (lon + 360 * INR k)
                   + 2 * INR k * PI)
    by (unfold d, toRadians; field; lra).
  split.
  - now rewrite Hm, sin_period, cos_period.
  - assert (Hs : sin (toRadians 39.8262 - toRadians (lon + 360 * INR k))
                 = sin d) by (rewrite Hp; symmetry; apply sin_period).
    assert (Hc : cos (toRadians 39.8262 - toRadians (lon + 360 * INR k))
                 = cos d) by (rewrite Hp; symmetry; apply cos_period).
    now rewrite Hs, Hc.
Qed.

(** *** The heading *)

(** The heading depends on the direction of the measured field and not
    on its strength: scaling [x] and [y] by a positive factor leaves it
    unchanged. *)
Theorem heading_scale (OS : string) (k x y : R) (z z' : number) (st : State) :
  0 < k ->
  heading (calculateHeading OS
             (setMagnetometerData (mkSample (Num (k * x)) (Num (k * y)) z) st))
  = heading (calculateHeading OS
               (setMagnetometerData (mkSample (Num x) (Num y) z') st)).
Proof.
  intros Hk.
  rewrite (heading_finite OS (k * x) (k * y) z) by reflexivity.
  rewrite (heading_finite OS x y z') by reflexivity.
  f_equal. destruct (platformKind OS); unfold computeHeading;
    now rewrite Ratan2_scale.
Qed.

Lemma heading_scale_witness :
  heading (calculateHeading "ios"
             (setMagnetometerData
                (mkSample (Num (2 * 3)) (Num (2 * 4)) (Num 0)) initialState))
  = heading (calculateHeading "ios"
               (setMagnetometerData
                  (mkSample (Num 3) (Num 4) (Num 9)) initialState)).
Proof. apply heading_scale. lra. Defined.

Lemma toDegrees_opp_right_angle : toDegrees (- (PI / 2)) = -90.
Proof.
  replace (- (PI / 2)) with ((- (1 / 2)) * PI) by field.
  rewrite toDegrees_PI. field.
Qed.

(** The four readings along the device axes, of any strength [m]: on iOS
    the headings of [(m, 0)], [(0, m)], [(-m, 0)] and [(0, -m)] are 0, 90,
    180 and 270; on the other platforms it is [(0, m)], [(m, 0)],
    [(0, -m)] and [(-m, 0)] that give 0, 90, 180 and 270. *)
Theorem heading_along_axes (OS : string) (m : R) (z : number) (st : State) :
  0 < m ->
  let h x y :=
    heading (calculateHeading OS
               (setMagnetometerData (mkSample (Num x) (Num y) z) st)) in
  if String.eqb OS "ios"
  then h m 0 = Num 0 /\ h 0 m = Num 90
       /\ h (- m) 0 = Num 180 /\ h 0 (- m) = Num 270
  else h 0 m = Num 0 /\ h m 0 = Num 90
       /\ h 0 (- m) = Num 180 /\ h (- m) 0 = Num 270.
Proof.
  intros Hm h.
  assert (Hneg : - m < 0) by lra.
  assert (E0 : normalize360 (toDegrees (Ratan2 0 m)) = 0).
  { rewrite Ratan2_axis_right, toDegrees_0 by exact Hm.
    apply normalize360_id. lra. }
  assert (E90 : normalize360 (toDegrees (Ratan2 m 0)) = 90).
  { rewrite Ratan2_axis_up, toDegrees_right_angle by exact Hm.
    apply normalize360_id. lra. }
  assert (E180 : normalize360 (toDegrees (Ratan2 0 (- m))) = 180).
  { rewrite Ratan2_axis_left, toDegrees_straight_angle by exact Hneg.
    apply normalize360_id. lra. }
  assert (E270 : normalize360 (toDegrees (Ratan2 (- m) 0)) = 270).
  { rewrite Ratan2_axis_down, toDegrees_opp_right_angle by exact Hneg.
    rewrite normalize360_negative; lra. }
  unfold h.
  rewrite (heading_finite OS m 0 z), (heading_finite OS 0 m z),
    (heading_finite OS (- m) 0 z), (heading_finite OS 0 (- m) z)
    by reflexivity.
  unfold platformKind, computeHeading.
  destruct (String.eqb OS "ios"); rewrite E0, E90, E180, E270; auto.
Qed.

Lemma heading_along_axes_witness :
  heading (calculateHeading "ios"
             (setMagnetometerData
                (mkSample (Num 0) (Num (- 25)) (Num 3)) initialState))
  = Num 270.
Proof.
  exact (proj2 (proj2 (proj2
           (heading_along_axes "ios" 25 (Num 3) initialState
              ltac:(lra))))).
Defined.







(** *** The screen over time *)

Lemma step_reading_frame (OS : string) (d : MagnetometerData) (st : State) :
  qiblaDirection (step OS (MagnetometerReading d) st) = qiblaDirection st
  /\ location (step OS (MagnetometerReading d) st) = location st
  /\ magnetometerData (step OS (MagnetometerReading d) st) = d.
Proof.
  cbn [step]. unfold headingEffect.
  change (location (setMagnetometerData d st)) with (location st).
  destruct (location st) eqn:E.
  - destruct (calculateHeading_frame OS (setMagnetometerData d st))
      as (Eq & Ed & El).
    rewrite Eq, Ed, El. repeat split. exact E.
  - repeat split. exact E.
Qed.

Lemma run_cons (OS : string) (ev : Event) (evs : list Event) (st : State) :
  run OS (ev :: evs) st = run OS evs (step OS ev st).
Proof. reflexivity. Qed.

Lemma run_snoc (OS : string) (ev : Event) (evs : list Event) (st : State) :
  run OS (evs ++ [ev]) st = step OS ev (run OS evs st).
Proof. unfold run. now rewrite foldl_app. Qed.

Lemma run_readings_frame (OS : string) (evs : list Event) (st : State) :
  Forall isReading evs ->
  qiblaDirection (run OS evs st) = qiblaDirection st
  /\ location (run OS evs st) = location st.
Proof.
  intros Hall. revert st. induction Hall as [| ev evs Hev _ IH]; intros st.
  - now cbn.
  - rewrite run_cons. destruct (IH (step OS ev st)) as [Eq El].
    rewrite Eq, El. destruct ev as [c | d]; [contradiction |].
    destruct (step_reading_frame OS d st) as (Eq' & El' & _). now split.
Qed.

(** Until a location is known the readings change neither angle: from
    the initial state both stay 0, however many readings arrive. *)
Theorem readings_before_fix (OS : string) (evs : list Event) (st : State) :
  location st = None ->
  Forall isReading evs ->
  heading (run OS evs st) = heading st
  /\ qiblaDirection (run OS evs st) = qiblaDirection st
  /\ location (run OS evs st) = None.
Proof.
  intros Hloc Hall. revert st Hloc.
  induction Hall as [| ev evs Hev _ IH]; intros st Hloc.
  - now cbn.
  - rewrite run_cons. destruct ev as [c | d]; [contradiction |].
    assert (Hstep : step OS (MagnetometerReading d) st
                    = setMagnetometerData d st).
    { cbn [step]. unfold headingEffect. cbn [setMagnetometerData location].
      now rewrite Hloc. }
    destruct (IH (step OS (MagnetometerReading d) st)) as (Eh & Eq & El).
    { now rewrite Hstep. }
    rewrite Eh, Eq, El, Hstep. now cbn.
Qed.

Lemma readings_before_fix_witness :
  heading (run "android"
             [MagnetometerReading (mkSample (Num 1) (Num 0) (Num 0));
              MagnetometerReading (mkSample (Num 0) (Num 1) (Num 0))]
             initialState)
  = Num 0.
Proof.
  refine (proj1 (readings_before_fix "android" _ initialState eq_refl _)).
  repeat constructor.
Defined.

Lemma step_fix_bearing (OS : string) (lat lon : R) (st : State) :
  qiblaDirection (step OS (LocationFix (mkCoords (Num lat) (Num lon))) st)
  = Num (computeBearing lat lon 21.4225 39.8262).
Proof.
  cbn [step]. unfold headingEffect.
  set (st1 := calculateQiblaDirection _ _).
  assert (E1 : qiblaDirection st1 = Num (computeBearing lat lon 21.4225 39.8262))
    by apply qiblaDirection_finite.
  destruct (location st1); [| exact E1].
  destruct (calculateHeading_frame OS st1) as (E & _). now rewrite E.
Qed.

(** After a location fix, any number of readings and a last reading, the
    bearing is the one of the fix, the heading the one of the last
    reading alone, and the indicator is turned by their difference. *)
Theorem fix_then_readings (OS : string) (lat lon x y : R) (z : number)
    (evs : list Event) (st : State) :
  Forall isReading evs ->
  let st' :=
    run OS (LocationFix (mkCoords (Num lat) (Num lon))
              :: evs ++ [MagnetometerReading (mkSample (Num x) (Num y) z)])
      st in
  qiblaDirection st' = Num (computeBearing lat lon 21.4225 39.8262)
  /\ heading st' = Num (computeHeading (platformKind OS) x y)
  /\ indicatorRotate (render st')
     = Num (computeBearing lat lon 21.4225 39.8262
            - computeHeading (platformKind OS) x y).
Proof.
  intros Hall st'.
  set (c := mkCoords (Num lat) (Num lon)).
  set (d := mkSample (Num x) (Num y) z).
  assert (Est : st' = step OS (MagnetometerReading d)
                        (run OS evs (step OS (LocationFix c) st))).
  { unfold st'. now rewrite run_cons, run_snoc. }
  destruct (run_readings_frame OS evs (step OS (LocationFix c) st) Hall)
    as [Eq El].
  rewrite step_fix_location in El.
  assert (Hq : qiblaDirection st'
               = Num (computeBearing lat lon 21.4225 39.8262)).
  { rewrite Est. destruct (step_reading_frame OS d
                             (run OS evs (step OS (LocationFix c) st)))
      as (Eq' & _). rewrite Eq', Eq. apply step_fix_bearing. }
  assert (Hh : heading st' = Num (computeHeading (platformKind OS) x y)).
  { rewrite Est. apply step_reading_heading. rewrite El. discriminate. }
  split; [exact Hq |]. split; [exact Hh |].
  change (indicatorRotate (render st'))
    with (sub (qiblaDirection st') (heading st')).
  now rewrite Hq, Hh.
Qed.

Lemma fix_then_readings_witness :
  heading (run "ios"
             (LocationFix (mkCoords (Num 51) (Num 0))
                :: [MagnetometerReading (mkSample (Num 1) (Num 1) (Num 0))]
                ++ [MagnetometerReading (mkSample (Num 0) (Num 5) (Num 0))])
             initialState)
  = Num (computeHeading (platformKind "ios") 0 5).
Proof.
  refine (proj1 (proj2 (fix_then_readings "ios" 51 0 0 5 (Num 0) _
                          initialState _))).
  repeat constructor.
Defined.

(** In every reachable state the indicator stands at the Qibla bearing
    on the rose: its rotation minus the rotation of the rose is the
    bearing; and it points straight up exactly when the heading is the
    bearing. *)
Theorem indicator_on_rose (OS : string) (st : State) :
  reachable OS st ->
  sub (indicatorRotate (render st)) (roseRotate (render st))
  = qiblaDirection st
  /\ (indicatorRotate (render st) = Num 0 <-> heading st = qiblaDirection st).
Proof.
  intros Hr. destruct (reachable_invariant OS st Hr) as (_ & Hq & Hh).
  destruct Hq as (q & Eq & _), Hh as (h & Eh & _).
  change (indicatorRotate (render st))
    with (sub (qiblaDirection st) (heading st)).
  change (roseRotate (render st)) with (neg (heading st)).
  rewrite Eq, Eh. cbn [sub neg]. split.
  - f_equal. ring.
  - split; intros H; injection H as H; f_equal; lra.
Qed.

Lemma indicator_on_rose_witness :
  sub (indicatorRotate (render facingEast)) (roseRotate (render facingEast))
  = qiblaDirection facingEast.
Proof.
  exact (proj1 (indicator_on_rose "android" facingEast facingEast_reachable)).
Defined.

End QiblaGeometry.

(** ** The Quran reader: saving a bookmark and going back to it *)

Module QuranBookmarks.

Import Tasbeeh Quran.

Section Data.

Variable nameOf : Surah -> string.
Variable JSON_stringify : Bookmark -> string.

#[local] Abbreviation pressAyah := (pressAyahBookmark nameOf JSON_stringify).
#[local] Abbreviation pressHeader :=
  (pressHeaderBookmark nameOf JSON_stringify).

Lemma selectedSurahIndex_Some (st : State) (s : Surah) :
  selectedSurah st = Some s -> s ∈ surahs st ->
  exists i, selectedSurahIndex st = Some i /\ surahs st !! i = Some s.
Proof.
  intros Hsel Hin. unfold selectedSurahIndex. rewrite Hsel.
  destruct (list_find_elem_of (fun x => x = s) (surahs st) s Hin eq_refl)
    as [[i x] Hfind].
  rewrite Hfind. exists i. split; [reflexivity |].
  apply list_find_Some in Hfind as (Hl & -> & _). exact Hl.
Qed.

(** Bookmarking an ayah of the surah being read records its index and
    its number (index plus one) and writes the bookmark to the storage;
    going to the bookmark later, from any state with the same bookmark
    and the same list, opens that surah at that ayah. *)
Theorem bookmark_then_return (s : Surah) (index : nat) (now : string)
    (st : State) (storage : Storage) :
  selectedSurah st = Some s -> s ∈ surahs st ->
  exists b : Bookmark,
    bookmark (fst (pressAyah index now st storage)) = Some b
    /\ ayahIndex b = index /\ ayahNumber b = index + 1
    /\ snd (pressAyah index now st storage) !! BOOKMARK_STORAGE_KEY
       = Some (JSON_stringify b)
    /\ forall st2 : State,
         bookmark st2 = Some b -> surahs st2 = surahs st ->
         selectedSurah (goToBookmark st2) = Some s
         /\ currentAyahIndex (goToBookmark st2) = index
         /\ viewMode (goToBookmark st2) = "read-surah".
Proof.
  intros Hsel Hin.
  destruct (selectedSurahIndex_Some st s Hsel Hin) as (i & Hi & Hl).
  unfold pressAyahBookmark. rewrite Hi. unfold saveBookmark. cbn [fst snd bookmark].
  eexists. split; [reflexivity |]. cbn [ayahIndex ayahNumber].
  split; [reflexivity |]. split; [reflexivity |].
  split; [apply lookup_insert_eq |].
  intros st2 Hb Hs. unfold goToBookmark. rewrite Hb. cbn [surahIndex ayahIndex].
  rewrite Hs, Hl. cbn. auto.
Qed.

(** After an ayah is bookmarked, it is the only ayah of the surah being
    read that is drawn as bookmarked, and the surah drawn as bookmarked
    in the list is the one at the index found for the surah being read. *)
Theorem bookmark_marks (s : Surah) (index : nat) (now : string)
    (st : State) (storage : Storage) :
  selectedSurah st = Some s -> s ∈ surahs st ->
  let st1 := fst (pressAyah index now st storage) in
  (forall j : nat, isBookmarkedAyah st1 j = true <-> j = index)
  /\ (forall i : nat,
        isBookmarkedSurah st1 i = true <-> selectedSurahIndex st = Some i).
Proof.
  intros Hsel Hin.
  destruct (selectedSurahIndex_Some st s Hsel Hin) as (i & Hi & Hl).
  cbv zeta. unfold pressAyahBookmark. rewrite Hi. unfold saveBookmark.
  cbn [fst]. split.
  - intros j. unfold isBookmarkedAyah.
    cbn [bookmark selectedSurah surahs surahIndex ayahIndex].
    rewrite Hsel, Hl, bool_decide_eq_true_2 by reflexivity.
    cbn [andb]. apply Nat.eqb_eq.
  - intros k. unfold isBookmarkedSurah. cbn [bookmark surahIndex].
    rewrite Nat.eqb_eq. split; [intros <-; reflexivity | congruence].
Qed.

(** What does nothing: going to a bookmark when there is none or when
    its surah index is beyond the list, and either bookmark button when
    the surah being read is not in the list. *)
Theorem bookmark_noops (now : string) (index : nat) (st : State)
    (storage : Storage) :
  (bookmark st = None -> goToBookmark st = st)
  /\ (forall b : Bookmark,
        bookmark st = Some b -> length (surahs st) <= surahIndex b ->
        goToBookmark st = st)
  /\ ((forall s : Surah, selectedSurah st = Some s -> s ∉ surahs st) ->
      pressAyah index now st storage = (st, storage)
      /\ pressHeader now st storage = (st, storage)).
Proof.
  split; [| split].
  - intros H. unfold goToBookmark. now rewrite H.
  - intros b H Hlen. unfold goToBookmark. rewrite H.
    now rewrite (lookup_ge_None_2 (surahs st) (surahIndex b)).
  - intros Hnot.
    assert (Hidx : selectedSurahIndex st = None).
    { unfold selectedSurahIndex.
      destruct (selectedSurah st) as [s |] eqn:Hsel; [| reflexivity].
      destruct (list_find (fun x => x = s) (surahs st)) as [[i x] |] eqn:Hf;
        [| reflexivity].
      apply list_find_Some in Hf as (Hl & -> & _).
      exfalso. apply (Hnot s eq_refl). eapply list_elem_of_lookup_2, Hl. }
    unfold pressAyahBookmark, pressHeaderBookmark. now rewrite Hidx.
Qed.

End Data.

Lemma bookmark_then_return_witness :
  exists b : Bookmark,
    bookmark (fst (pressAyahBookmark (fun _ => "") (fun _ => "bookmark")
                     4 "2024-01-01T00:00:00.000Z" reading ∅))
    = Some b
    /\ ayahIndex b = 4.
Proof.
  destruct (bookmark_then_return (fun _ => "") (fun _ => "bookmark")
              8%positive 4 "2024-01-01T00:00:00.000Z" reading ∅ eq_refl)
    as (b & Hb & Hi & _).
  - unfold reading. cbn [surahs]. set_solver.
  - exists b. split; assumption.
Defined.

Lemma bookmark_marks_witness :
  isBookmarkedAyah
    (fst (pressAyahBookmark (fun _ => "") (fun _ => "bookmark")
            4 "2024-01-01T00:00:00.000Z" reading ∅)) 4
  = true.
Proof.
  apply (proj1 (bookmark_marks (fun _ => "") (fun _ => "bookmark")
                  8%positive 4 "2024-01-01T00:00:00.000Z" reading ∅
                  eq_refl ltac:(unfold reading; cbn [surahs]; set_solver))).
  reflexivity.
Defined.

Lemma bookmark_noops_witness :
  goToBookmark reading = reading
  /\ pressHeaderBookmark (fun _ => "") (fun _ => "bookmark")
       "2024-01-01T00:00:00.000Z" (handleBackToList reading) ∅
     = (handleBackToList reading, ∅).
Proof.
  split.
  - exact (proj1 (bookmark_noops (fun _ => "") (fun _ => "bookmark")
                    "" 0 reading ∅) eq_refl).
  - refine (proj2 (proj2 (proj2 (bookmark_noops (fun _ => "")
                                   (fun _ => "bookmark")
                                   "2024-01-01T00:00:00.000Z" 0
                                   (handleBackToList reading) ∅)) _)).
    intros s Hs. discriminate Hs.
Defined.

End QuranBookmarks.
